(** * cra-append-sw: the output pipeline of [src/index.mjs]

    A shallow embedding of the command line tool: the option record that
    commander fills in, the three promise-returning helpers [read],
    [compile] and [append] (with [writeFile]), and the [action] callback
    that chains them.

    Conventions of the model.
    - [Disk] maps paths to text: it is the disk as seen through the
      ['utf8'] encoding with which [fs.readFile] and [fs.writeFile] are
      always called.  The bytes underneath, their decoding and what an
      invocation does to them are in [RawDisk], [utf8_decode] and
      [action_on_bytes].
    - A promise is a cell settled at most once: the first call of
      [resolve] or [reject] wins and later calls change nothing.  Every
      call is nevertheless recorded in the event log, together with the
      file-system calls, in the order in which they happen.
    - Node runs the callbacks of one invocation one after the other, so a
      callback is sequenced directly after the call that registers it.
    - [path.basename], [path.join], [process.cwd] and the webpack run are
      external: they are variables of the section. *)

From stdpp Require Import base strings gmap list.
From Stdlib Require Import Ascii.

(** ** Constants of the module *)

Definition BUILD_SW_FILE_PATH : string := "build/service-worker.js".
Definition BUNDLE_FILE_NAME : string := "bundle.js".

(** ** JavaScript values that flow through the pipeline *)

Inductive jsval :=
| JUndefined
| JBool (b : bool)
| JStr (s : string).

(** ECMAScript [ToString] on these values. *)
Definition ToString (v : jsval) : string :=
  match v with
  | JUndefined => "undefined"
  | JBool b => if b then "true" else "false"
  | JStr s => s
  end.

(** [v === 'lit'] for a string literal on the right. *)
Definition js_strict_eq (v : jsval) (lit : string) : bool :=
  match v with
  | JStr s => String.eqb s lit
  | JUndefined | JBool _ => false
  end.

(** [data + code] where the right operand is a string: the left operand
    is converted with [ToString] and the two are concatenated. *)
Definition js_add (data : jsval) (code : string) : string :=
  ToString data +:+ code.

(** ** Errors *)

Inductive errno := ENOENT | EACCES.

Inductive error :=
| IOError (code : errno) (path : string)   (* error object of an fs callback *)
| JsError (message : string)               (* [new Error(message)] *)
| WebpackError (message : string)          (* the [err] webpack hands to the run callback *)
| TypeError (property : string).           (* reading a property of [undefined] *)

(** ** The disk *)

Record Disk := {
  files : gmap string string;
  noread : gset string;     (* paths on which a read is refused *)
  nowrite : gset string     (* paths on which a write is refused *)
}.

Definition Disk_read (path : string) (d : Disk) : error + string :=
  if decide (path ∈ noread d) then inl (IOError EACCES path)
  else match files d !! path with
       | Some text => inr text
       | None => inl (IOError ENOENT path)
       end.

(** A refused write leaves the disk as it was; a write that goes through
    creates the file or replaces its whole content. *)
Definition Disk_write (path data : string) (d : Disk) : option error * Disk :=
  if decide (path ∈ nowrite d) then (Some (IOError EACCES path), d)
  else (None, {| files := <[path := data]> (files d);
                 noread := noread d;
                 nowrite := nowrite d |}).

(** ** webpack, seen from the call site *)

Record StatsOptions := { errorDetails : bool; warnings : bool }.

Record Stats := {
  hasErrors : bool;
  hasWarnings : bool;
  toString : StatsOptions -> string
}.

Record WebpackConfig := {
  cfg_mode : string;
  cfg_entry : list string;
  cfg_output_filename : string;
  cfg_output_path : string;
  cfg_ts_configFile : string;
  cfg_dotenv_path : string;
  cfg_minimize : bool
}.

(** What [compiler.run] passes to its callback: [err], or the stats and
    the [data] of the in-memory output file system. *)
Inductive RunOutcome :=
| RunErr (err : error)
| RunStats (stats : Stats) (data : gmap string string).

(** ** Events, world, promises *)

Inductive event :=
| EvSetEnv (name value : string)
| EvReadFile (path : string)
| EvWriteFile (path data : string)
| EvRun (config : WebpackConfig)
| EvResolve
| EvReject (reason : error)
| EvUncaught (exn : error).

Record World := {
  disk : Disk;
  process_env : gmap string string;
  log : list event
}.

Definition emit (ev : event) (w : World) : World :=
  {| disk := disk w; process_env := process_env w; log := log w ++ [ev] |}.

Definition setenv (name value : string) (w : World) : World :=
  {| disk := disk w;
     process_env := <[name := value]> (process_env w);
     log := log w ++ [EvSetEnv name value] |}.

Inductive Promise (R : Type) :=
| Pending
| Fulfilled (value : R)
| Rejected (reason : error).
Arguments Pending {R}.
Arguments Fulfilled {R} value.
Arguments Rejected {R} reason.

Record ExecState (R : Type) := {
  world : World;
  promise : Promise R
}.
Arguments world {R} _.
Arguments promise {R} _.
Arguments Build_ExecState {R} _ _.

(** The body of [new Promise((resolve, reject) => ...)]: a state
    transformer over the world and the promise's cell. *)
Definition Exec (R A : Type) : Type := ExecState R -> A * ExecState R.

Definition ret {R A} (a : A) : Exec R A := fun s => (a, s).

Definition bind {R A B} (m : Exec R A) (k : A -> Exec R B) : Exec R B :=
  fun s => let '(a, s') := m s in k a s'.

Declare Scope exec_scope.
Delimit Scope exec_scope with exec.
Notation "m ;; k" := (bind m (fun _ => k))
  (at level 100, right associativity) : exec_scope.

Definition settle {R} (outcome : Promise R) (p : Promise R) : Promise R :=
  match p with
  | Pending => outcome
  | _ => p
  end.

Definition resolve {R} (value : R) : Exec R unit :=
  fun s => (tt, {| world := emit EvResolve (world s);
                   promise := settle (Fulfilled value) (promise s) |}).

Definition reject {R} (reason : error) : Exec R unit :=
  fun s => (tt, {| world := emit (EvReject reason) (world s);
                   promise := settle (Rejected reason) (promise s) |}).

(** An exception thrown inside an asynchronous callback: nobody catches
    it and the promise stays as it is. *)
Definition uncaught {R} (exn : error) : Exec R unit :=
  fun s => (tt, {| world := emit (EvUncaught exn) (world s);
                   promise := promise s |}).

(** [if (error) { reject(error); }] *)
Definition if_error {R} (error : option error) : Exec R unit :=
  match error with
  | Some e => reject e
  | None => ret tt
  end.

(** [fs.readFile(path, 'utf8', (error, data) => ...)]: the callback gets
    the error and no data, or no error and the text. *)
Definition fs_readFile {R} (path : string)
    (callback : option error -> jsval -> Exec R unit) : Exec R unit :=
  fun s =>
    let w := emit (EvReadFile path) (world s) in
    let s' := {| world := w; promise := promise s |} in
    match Disk_read path (disk w) with
    | inr text => callback None (JStr text) s'
    | inl e => callback (Some e) JUndefined s'
    end.

(** [fs.writeFile(path, data, 'utf8', error => ...)] *)
Definition fs_writeFile {R} (path data : string)
    (callback : option error -> Exec R unit) : Exec R unit :=
  fun s =>
    let w := emit (EvWriteFile path data) (world s) in
    let '(error, d) := Disk_write path data (disk w) in
    callback error
      {| world := {| disk := d; process_env := process_env w; log := log w |};
         promise := promise s |}.

Definition new_Promise {R} (executor : Exec R unit) (w : World) : Promise R * World :=
  let '(_, s) := executor {| world := w; promise := Pending |} in
  (promise s, world s).

(** [p.then(k)] with no rejection handler. *)
Definition promise_then {A B} (p : World -> Promise A * World)
    (k : A -> World -> Promise B * World) (w : World) : Promise B * World :=
  let '(r, w1) := p w in
  match r with
  | Fulfilled value => k value w1
  | Rejected reason => (Rejected reason, w1)
  | Pending => (Pending, w1)
  end.

(** ** The [--mode] option

    The option is declared with the regular expression
    [/^(dev|build|replace)$/i].  Without the [u] flag, ignoring case
    compares code units after upper-casing, and a code unit outside ASCII
    never becomes an ASCII one, so only the letters a-z are affected by
    the comparison with these alternatives. *)

Definition Canonicalize (ch : ascii) : ascii :=
  let n := nat_of_ascii ch in
  if (97 <=? n)%nat && (n <=? 122)%nat then ascii_of_nat (n - 32) else ch.

Fixpoint canonical (s : string) : string :=
  match s with
  | EmptyString => EmptyString
  | String ch rest => String (Canonicalize ch) (canonical rest)
  end.

(** [regex.exec(val)]: the pattern is anchored at both ends, so a match
    is the whole of [val]. *)
Definition mode_regex_exec (val : string) : option string :=
  if existsb (fun alt => String.eqb (canonical val) (canonical alt))
             ["dev"; "build"; "replace"]
  then Some val else None.

(** commander's coercion of an option declared with a regular expression:
    [m ? m[0] : def]. *)
Definition mode_coerce (val : string) (def : jsval) : jsval :=
  match mode_regex_exec val with
  | Some m0 => JStr m0
  | None => def
  end.

(** ** The program *)

Record Program := {
  mode : jsval;
  skipCompile : bool;
  env : string;
  tsconfig : string
}.

Section Index.

Variable basename : string -> string.
Variable path_join : string -> string -> string.
Variable cwd : string.
Variable webpack_run : WebpackConfig -> Disk -> gmap string string -> RunOutcome.
Variable program : Program.

Local Open Scope exec_scope.

Definition webpack_config (entry : string) : WebpackConfig :=
  {| cfg_mode := if js_strict_eq (mode program) "dev" then "development" else "production";
     cfg_entry := [entry];
     cfg_output_filename := BUNDLE_FILE_NAME;
     cfg_output_path := "/";
     cfg_ts_configFile := path_join cwd (tsconfig program);
     cfg_dotenv_path := path_join cwd (env program);
     cfg_minimize := true |}.

(** [compiler.run((err, stats) => ...)]: the output goes to the
    in-memory file system, the disk is left alone. *)
Definition compiler_run {R} (config : WebpackConfig)
    (callback : RunOutcome -> Exec R unit) : Exec R unit :=
  fun s =>
    let w := emit (EvRun config) (world s) in
    callback (webpack_run config (disk w) (process_env w))
      {| world := w; promise := promise s |}.

Definition compile (entry : string) : World -> Promise (string * Stats) * World :=
  let compiler := webpack_config entry in
  new_Promise (
    compiler_run compiler (fun outcome =>
      match outcome with
      | RunErr err => reject err
      | RunStats stats data =>
          if hasErrors stats || hasWarnings stats then
            reject (JsError (toString stats {| errorDetails := true; warnings := true |}))
          else
            match data !! BUNDLE_FILE_NAME with
            | Some result => resolve (result, stats)
            | None => uncaught (TypeError "toString")
            end
      end)).

Definition read (entry : string) : World -> Promise jsval * World :=
  new_Promise (
    fs_readFile entry (fun error result =>
      if_error error ;;
      resolve result)).

Definition writeFile (content file : string) : World -> Promise jsval * World :=
  new_Promise (
    fs_writeFile file content (fun error =>
      if_error error ;;
      resolve JUndefined)).

Definition append (code file : string) : World -> Promise jsval * World :=
  if js_strict_eq (mode program) "dev" then
    let filename := basename file in
    writeFile code ("public/" +:+ filename)
  else if js_strict_eq (mode program) "build" then
    let filename := basename file in
    writeFile code ("build/" +:+ filename)
  else if js_strict_eq (mode program) "replace" then
    let filename := basename file in
    writeFile code BUILD_SW_FILE_PATH
  else
    new_Promise (
      fs_readFile BUILD_SW_FILE_PATH (fun error data =>
        if_error error ;;
        let result := js_add data code in
        fs_writeFile BUILD_SW_FILE_PATH result (fun error =>
          if_error error ;;
          resolve JUndefined))).

(** The callback given to [.action].  [append] documents its first
    parameter as a String; the value [read] fulfils with is a string
    (lemma [read_fulfilled_is_text] below), on which [ToString] is the
    identity. *)
Definition action (file : string) (w : World) : Promise jsval * World :=
  let w1 :=
    if js_strict_eq (mode program) "dev" then
      setenv "NODE_ENV" "development" (setenv "BABEL_ENV" "development" w)
    else
      setenv "NODE_ENV" "production" (setenv "BABEL_ENV" "production" w) in
  if skipCompile program then
    promise_then (read file) (fun result => append (ToString result) file) w1
  else
    promise_then (compile file) (fun '(result, stats) => append result file) w1.

End Index.

(** ** Concrete externals for closed examples

    The theorems below hold for every choice of the externals.  Closed
    examples use Node's POSIX [path.basename] (one argument: drop the
    trailing slashes, keep what follows the last remaining slash), a
    plain joining function and a bundler that returns a fixed outcome. *)

Fixpoint strip_leading_slashes (l : list ascii) : list ascii :=
  match l with
  | "/"%char :: rest => strip_leading_slashes rest
  | _ => l
  end.

Fixpoint until_slash (l : list ascii) : list ascii :=
  match l with
  | [] => []
  | ch :: rest => if Ascii.eqb ch "/" then [] else ch :: until_slash rest
  end.

Definition posix_basename (path : string) : string :=
  String.string_of_list_ascii
    (rev (until_slash (strip_leading_slashes (rev (String.list_ascii_of_string path))))).

Definition plain_join (a b : string) : string := a +:+ "/" +:+ b.

Definition fixed_bundler (outcome : RunOutcome)
    (_ : WebpackConfig) (_ : Disk) (_ : gmap string string) : RunOutcome := outcome.

Definition empty_disk : Disk := {| files := ∅; noread := ∅; nowrite := ∅ |}.

Definition disk_of (l : list (string * string)) : Disk :=
  {| files := list_to_map l; noread := ∅; nowrite := ∅ |}.

Definition world_of (d : Disk) : World :=
  {| disk := d; process_env := ∅; log := [] |}.

Definition program_of (m : jsval) (skip : bool) : Program :=
  {| mode := m; skipCompile := skip; env := "./.env"; tsconfig := "./tsconfig.json" |}.

(** ** Reading the event log *)

(** The writes attempted, with path and data, in order. *)
Definition written (evs : list event) : list (string * string) :=
  omap (fun ev => match ev with EvWriteFile p d => Some (p, d) | _ => None end) evs.

(** The paths read, in order. *)
Definition read_paths (evs : list event) : list string :=
  omap (fun ev => match ev with EvReadFile p => Some p | _ => None end) evs.

(** The reasons passed to [reject], in order. *)
Definition rejections (evs : list event) : list error :=
  omap (fun ev => match ev with EvReject e => Some e | _ => None end) evs.

(** The number of calls of [resolve]. *)
Definition resolutions (evs : list event) : nat :=
  length (omap (fun ev => match ev with EvResolve => Some tt | _ => None end) evs).

(** ASCII lower-casing, the reading of "case-insensitively" that does not
    go through the regular expression. *)
Definition lower_char (ch : ascii) : ascii :=
  let n := nat_of_ascii ch in
  if (65 <=? n)%nat && (n <=? 90)%nat then ascii_of_nat (n + 32) else ch.

Fixpoint lower (s : string) : string :=
  match s with
  | EmptyString => EmptyString
  | String ch rest => String (lower_char ch) (lower rest)
  end.

(** ** Vocabulary of the statements *)

(** The mode selects none of the three named branches: it is unset, or
    a value other than the strings "dev", "build" and "replace". *)
Definition default_mode (m : jsval) : bool :=
  negb (js_strict_eq m "dev") && negb (js_strict_eq m "build")
  && negb (js_strict_eq m "replace").

Definition set_mode (m : jsval) (p : Program) : Program :=
  {| mode := m; skipCompile := skipCompile p; env := env p; tsconfig := tsconfig p |}.

(** The value given to both environment variables. *)
Definition env_value (program : Program) : string :=
  if js_strict_eq (mode program) "dev" then "development" else "production".

(** The first call after the environment is set. *)
Definition first_call path_join cwd program (file : string) : event :=
  if skipCompile program then EvReadFile file
  else EvRun (webpack_config path_join cwd program file).

(** A report with one warning and no error, for closed examples. *)
Definition warned_stats : Stats :=
  {| hasErrors := false;
     hasWarnings := true;
     toString := fun options =>
       if warnings options then "WARNING in ./src/sw.js" else "" |}.

(** The path [append] hands to [fs.writeFile]: the first two branches
    build it from the entry file's base name, the other two use the
    constant. *)
Definition destination (basename : string -> string) (program : Program)
    (file : string) : string :=
  if js_strict_eq (mode program) "dev" then "public/" +:+ basename file
  else if js_strict_eq (mode program) "build" then "build/" +:+ basename file
  else BUILD_SW_FILE_PATH.

(** The configurations of the bundler runs recorded in a log, in order. *)
Definition runs (evs : list event) : list WebpackConfig :=
  omap (fun ev => match ev with EvRun config => Some config | _ => None end) evs.

(** The environment in which the helpers of an invocation run. *)
Definition action_env_map (program : Program) (vars : gmap string string)
    : gmap string string :=
  <["NODE_ENV" := env_value program]> (<["BABEL_ENV" := env_value program]> vars).

(** The report formatted the way [compile] asks for it. *)
Definition full_report (stats : Stats) : string :=
  toString stats {| errorDetails := true; warnings := true |}.

(** A report with neither error nor warning, for closed examples. *)
Definition clean_stats : Stats :=
  {| hasErrors := false; hasWarnings := false; toString := fun _ => "" |}.

(** The world once [action] has assigned the two variables. *)
Definition started (program : Program) (w : World) : World :=
  {| disk := disk w;
     process_env := action_env_map program (process_env w);
     log := log w ++ [EvSetEnv "BABEL_ENV" (env_value program);
                      EvSetEnv "NODE_ENV" (env_value program)] |}.

(** What ends up in the destination when all goes well: the content
    itself, preceded in the default mode by what the service worker file
    held. *)
Definition routed_text (program : Program) (existing content : string) : string :=
  if default_mode (mode program) then existing +:+ content else content.

(** ** The bytes behind the text

    [Disk] is the disk as the tool sees it through the ['utf8']
    encoding.  Underneath, a file holds bytes: [fs.readFile(_, 'utf8')]
    decodes them, putting U+FFFD in place of whatever is not well-formed
    UTF-8, and [fs.writeFile(_, data, 'utf8')] stores the UTF-8 encoding
    of [data].  A text is represented by its UTF-8 encoding, so that
    storing a text stores its representation and decoding maps the bytes
    of a file to the representation of its text. *)

Definition byte_in (lo hi : N) (b : ascii) : bool :=
  (lo <=? N_of_ascii b)%N && (N_of_ascii b <=? hi)%N.

(** For a first byte: how many bytes follow and the range allowed for
    the next one (the table of well-formed UTF-8 byte sequences); [None]
    for a byte that cannot start a sequence. *)
Definition lead_info (b : ascii) : option (nat * N * N) :=
  if byte_in 0x00 0x7F b then Some (0, 0x80%N, 0xBF%N)
  else if byte_in 0xC2 0xDF b then Some (1, 0x80%N, 0xBF%N)
  else if byte_in 0xE0 0xE0 b then Some (2, 0xA0%N, 0xBF%N)
  else if byte_in 0xED 0xED b then Some (2, 0x80%N, 0x9F%N)
  else if byte_in 0xE1 0xEF b then Some (2, 0x80%N, 0xBF%N)
  else if byte_in 0xF0 0xF0 b then Some (3, 0x90%N, 0xBF%N)
  else if byte_in 0xF4 0xF4 b then Some (3, 0x80%N, 0x8F%N)
  else if byte_in 0xF1 0xF3 b then Some (3, 0x80%N, 0xBF%N)
  else None.

(** The UTF-8 encoding of U+FFFD. *)
Definition REPLACEMENT : list ascii :=
  [ascii_of_N 0xEF; ascii_of_N 0xBF; ascii_of_N 0xBD].

(** The state of the decoder: the number of bytes still needed to finish
    the sequence under way, the bytes of it seen so far, and the range in
    which the next byte must lie. *)
Record decoder := {
  needed : nat;
  seen : list ascii;
  lower_boundary : N;
  upper_boundary : N
}.

Definition idle : decoder :=
  {| needed := 0; seen := []; lower_boundary := 0x80; upper_boundary := 0xBF |}.

(** A byte met when no sequence is under way. *)
Definition begin (b : ascii) : list ascii * decoder :=
  match lead_info b with
  | Some (0, _, _) => ([b], idle)
  | Some (more, lo, hi) => ([], {| needed := more; seen := [b]; lower_boundary := lo; upper_boundary := hi |})
  | None => (REPLACEMENT, idle)
  end.

(** One byte through the decoder: what comes out and the next state.  A
    byte that cannot continue the sequence under way makes that sequence
    one U+FFFD and is then looked at afresh. *)
Definition step (st : decoder) (b : ascii) : list ascii * decoder :=
  match needed st with
  | 0 => begin b
  | S more =>
      if byte_in (lower_boundary st) (upper_boundary st) b then
        match more with
        | 0 => (seen st ++ [b], idle)
        | S _ => ([], {| needed := more; seen := seen st ++ [b];
                         lower_boundary := 0x80; upper_boundary := 0xBF |})
        end
      else
        let '(out, st') := begin b in (REPLACEMENT ++ out, st')
  end.

(** A sequence cut short by the end of the file is one U+FFFD. *)
Fixpoint decode_from (st : decoder) (bytes : list ascii) : list ascii :=
  match bytes with
  | [] => match needed st with 0 => [] | S _ => REPLACEMENT end
  | b :: rest => let '(out, st') := step st b in out ++ decode_from st' rest
  end.

Definition utf8_decode (bytes : string) : string :=
  String.string_of_list_ascii (decode_from idle (String.list_ascii_of_string bytes)).

(** Well-formed UTF-8, read off the table sequence by sequence. *)
Fixpoint well_formed (bytes : list ascii) : bool :=
  match bytes with
  | [] => true
  | b :: rest =>
      match lead_info b with
      | Some (0, _, _) => well_formed rest
      | Some (1, lo, hi) =>
          match rest with
          | c1 :: rest1 => byte_in lo hi c1 && well_formed rest1
          | _ => false
          end
      | Some (2, lo, hi) =>
          match rest with
          | c1 :: c2 :: rest2 =>
              byte_in lo hi c1 && byte_in 0x80 0xBF c2 && well_formed rest2
          | _ => false
          end
      | Some (3, lo, hi) =>
          match rest with
          | c1 :: c2 :: c3 :: rest3 =>
              byte_in lo hi c1 && byte_in 0x80 0xBF c2 && byte_in 0x80 0xBF c3
              && well_formed rest3
          | _ => false
          end
      | _ => false
      end
  end.

Definition well_formed_utf8 (bytes : string) : bool :=
  well_formed (String.list_ascii_of_string bytes).

Definition string_of_bytes (codes : list N) : string :=
  String.string_of_list_ascii (map ascii_of_N codes).

(** The disk as bytes, and the disk the tool sees through it. *)
Record RawDisk := {
  raw_files : gmap string string;
  raw_noread : gset string;
  raw_nowrite : gset string
}.

Definition decoded (rd : RawDisk) : Disk :=
  {| files := utf8_decode <$> raw_files rd;
     noread := raw_noread rd;
     nowrite := raw_nowrite rd |}.

(** [fs.writeFile(path, data, 'utf8')] on the bytes: refused, or the file
    becomes the encoding of [data]. *)
Definition raw_write (path data : string) (rd : RawDisk) : RawDisk :=
  if decide (path ∈ raw_nowrite rd) then rd
  else {| raw_files := <[path := data]> (raw_files rd);
          raw_noread := raw_noread rd;
          raw_nowrite := raw_nowrite rd |}.

(** The writes of a log carried out on the bytes, in order. *)
Definition raw_replay (evs : list event) (rd : RawDisk) : RawDisk :=
  foldl (fun acc ev => match ev with
                       | EvWriteFile path data => raw_write path data acc
                       | _ => acc
                       end) rd evs.

(** An invocation over a disk of bytes: the tool runs on the decoded
    view, and its writes land on the bytes. *)
Definition action_on_bytes (basename : string -> string)
    (path_join : string -> string -> string) (cwd : string)
    (webpack_run : WebpackConfig -> Disk -> gmap string string -> RunOutcome)
    (program : Program) (file : string) (vars : gmap string string)
    (rd : RawDisk) : Promise jsval * RawDisk :=
  let out := action basename path_join cwd webpack_run program file
               {| disk := decoded rd; process_env := vars; log := [] |} in
  (out.1, raw_replay (log out.2) rd).

(** ** Regular expressions, as far as the option needs them

    Characters, sequence, alternation, groups and the two anchors, with
    the backtracking semantics of ECMAScript: a pattern is matched at a
    position of the input against a continuation that receives the
    position reached.  With [ignoreCase], a pattern character and an
    input character match when they canonicalize to the same one. *)

Inductive regex :=
| RChar (c : ascii)
| REmpty
| RSeq (r1 r2 : regex)
| RAlt (r1 r2 : regex)
| RGroup (r : regex)
| RBol
| REol.

Definition char_matches (ignoreCase : bool) (c ch : ascii) : bool :=
  if ignoreCase then Ascii.eqb (Canonicalize ch) (Canonicalize c)
  else Ascii.eqb ch c.

Fixpoint rmatch (ignoreCase : bool) (r : regex) (input : list ascii) (i : nat)
    (k : nat -> option nat) : option nat :=
  match r with
  | RChar c =>
      match input !! i with
      | Some ch => if char_matches ignoreCase c ch then k (S i) else None
      | None => None
      end
  | REmpty => k i
  | RSeq r1 r2 => rmatch ignoreCase r1 input i (fun j => rmatch ignoreCase r2 input j k)
  | RAlt r1 r2 =>
      match rmatch ignoreCase r1 input i k with
      | Some e => Some e
      | None => rmatch ignoreCase r2 input i k
      end
  | RGroup r1 => rmatch ignoreCase r1 input i k
  | RBol => if (i =? 0)%nat then k i else None
  | REol => if (i =? length input)%nat then k i else None
  end.

(** The first position, from the left, at which the pattern matches,
    with the position the match reaches. *)
Fixpoint first_match (ignoreCase : bool) (r : regex) (input : list ascii)
    (starts : list nat) : option (nat * nat) :=
  match starts with
  | [] => None
  | start :: later =>
      match rmatch ignoreCase r input start Some with
      | Some e => Some (start, e)
      | None => first_match ignoreCase r input later
      end
  end.

(** [regex.exec(val)], reduced to [m[0]]. *)
Definition regex_exec (ignoreCase : bool) (r : regex) (val : string) : option string :=
  let input := String.list_ascii_of_string val in
  match first_match ignoreCase r input (seq 0 (S (length input))) with
  | Some (start, e) =>
      Some (String.string_of_list_ascii (take (e - start) (drop start input)))
  | None => None
  end.

Fixpoint literal (s : string) : regex :=
  match s with
  | EmptyString => REmpty
  | String c rest => RSeq (RChar c) (literal rest)
  end.

(** [/^(dev|build|replace)$/i], the pattern given to [.option]. *)
Definition MODE_PATTERN : regex :=
  RSeq RBol
    (RSeq (RGroup (RAlt (literal "dev") (RAlt (literal "build") (literal "replace"))))
       REol).

(** * Properties *)

(** ** Equations of the helpers *)

Lemma Disk_write_ok path data d :
  path ∉ nowrite d ->
  Disk_write path data d =
    (None, {| files := <[path := data]> (files d);
              noread := noread d; nowrite := nowrite d |}).
Proof. intros Hw. unfold Disk_write. destruct (decide _); [contradiction | reflexivity]. Qed.

Lemma Disk_write_refused path data d :
  path ∈ nowrite d ->
  Disk_write path data d = (Some (IOError EACCES path), d).
Proof. intros Hw. unfold Disk_write. destruct (decide _); [reflexivity | contradiction]. Qed.

Lemma Disk_read_missing path d :
  files d !! path = None ->
  exists code, Disk_read path d = inl (IOError code path).
Proof.
  intros Hnone. unfold Disk_read. destruct (decide _); [by exists EACCES |].
  rewrite Hnone. by exists ENOENT.
Qed.

Lemma Disk_read_text path d text :
  Disk_read path d = inr text ->
  files d !! path = Some text /\ path ∉ noread d.
Proof.
  unfold Disk_read. destruct (decide _); [discriminate |].
  destruct (files d !! path); [| discriminate]. intros [= ->]. by split.
Qed.

(** Unfolding of the promise machinery, and the log brought back to the
    form [log w ++ events]. *)
Ltac exec_unfold :=
  unfold new_Promise, fs_writeFile, fs_readFile, bind, if_error, resolve,
    reject, uncaught, ret, settle, emit; simpl.

Ltac log_norm := rewrite <- ?app_assoc; simpl.

(** [writeFile] when the write goes through. *)
Lemma writeFile_ok content file w :
  file ∉ nowrite (disk w) ->
  writeFile content file w =
    (Fulfilled JUndefined,
     {| disk := {| files := <[file := content]> (files (disk w));
                   noread := noread (disk w); nowrite := nowrite (disk w) |};
        process_env := process_env w;
        log := log w ++ [EvWriteFile file content; EvResolve] |}).
Proof.
  intros Hw. unfold writeFile. exec_unfold.
  rewrite (Disk_write_ok _ _ _ Hw). exec_unfold. by log_norm.
Qed.

(** [writeFile] when the write is refused: [reject] is called, and then
    [resolve], to no effect. *)
Lemma writeFile_refused content file w :
  file ∈ nowrite (disk w) ->
  writeFile content file w =
    (Rejected (IOError EACCES file),
     {| disk := disk w;
        process_env := process_env w;
        log := log w ++ [EvWriteFile file content; EvReject (IOError EACCES file);
                         EvResolve] |}).
Proof.
  intros Hw. unfold writeFile. exec_unfold.
  rewrite (Disk_write_refused _ _ _ Hw). exec_unfold. by log_norm.
Qed.

(** [read] on a file that can be read. *)
Lemma read_ok entry w text :
  Disk_read entry (disk w) = inr text ->
  read entry w =
    (Fulfilled (JStr text),
     {| disk := disk w; process_env := process_env w;
        log := log w ++ [EvReadFile entry; EvResolve] |}).
Proof.
  intros Hr. unfold read. exec_unfold. rewrite Hr. exec_unfold. by log_norm.
Qed.

(** [read] on a file that cannot be read. *)
Lemma read_failed entry w e :
  Disk_read entry (disk w) = inl e ->
  read entry w =
    (Rejected e,
     {| disk := disk w; process_env := process_env w;
        log := log w ++ [EvReadFile entry; EvReject e; EvResolve] |}).
Proof.
  intros Hr. unfold read. exec_unfold. rewrite Hr. exec_unfold. by log_norm.
Qed.

Lemma read_fulfilled_is_text entry w v :
  (read entry w).1 = Fulfilled v ->
  exists text, v = JStr text /\ Disk_read entry (disk w) = inr text.
Proof.
  destruct (Disk_read entry (disk w)) as [e | text] eqn:Hr.
  - rewrite (read_failed _ _ _ Hr). discriminate.
  - rewrite (read_ok _ _ _ Hr). intros [= <-]. by exists text.
Qed.

(** ** Strings *)

Lemma append_cons ch s t : String ch s +:+ t = String ch (s +:+ t).
Proof. reflexivity. Qed.

Lemma append_empty_r s : s +:+ "" = s.
Proof. induction s as [| ch s IH]; [reflexivity |]. by rewrite append_cons, IH. Qed.

Lemma append_assoc s t u : (s +:+ t) +:+ u = s +:+ t +:+ u.
Proof. induction s as [| ch s IH]; [reflexivity |]. by rewrite !append_cons, IH. Qed.

Lemma append_fixed s t : s +:+ t = s -> t = "".
Proof.
  intros Heq. rewrite <- (append_empty_r s) in Heq at 2.
  by apply (inj (String.append s)) in Heq.
Qed.

(** ** The four branches of [append] *)

Section Routing.

Variable basename : string -> string.
Variable program : Program.

Lemma append_dev code file :
  mode program = JStr "dev" ->
  append basename program code file = writeFile code ("public/" +:+ basename file).
Proof. intros Hm. unfold append. by rewrite Hm. Qed.

Lemma append_build code file :
  mode program = JStr "build" ->
  append basename program code file = writeFile code ("build/" +:+ basename file).
Proof. intros Hm. unfold append. by rewrite Hm. Qed.

Lemma append_replace code file :
  mode program = JStr "replace" ->
  append basename program code file = writeFile code BUILD_SW_FILE_PATH.
Proof. intros Hm. unfold append. by rewrite Hm. Qed.

Lemma default_mode_tests :
  default_mode (mode program) = true ->
  js_strict_eq (mode program) "dev" = false
  /\ js_strict_eq (mode program) "build" = false
  /\ js_strict_eq (mode program) "replace" = false.
Proof.
  unfold default_mode.
  destruct (js_strict_eq _ "dev"), (js_strict_eq _ "build"),
    (js_strict_eq _ "replace"); simpl; intros; try discriminate; done.
Qed.

(** Default branch, the existing file is read and the write goes
    through. *)
Lemma append_default_ok code file w text :
  default_mode (mode program) = true ->
  Disk_read BUILD_SW_FILE_PATH (disk w) = inr text ->
  BUILD_SW_FILE_PATH ∉ nowrite (disk w) ->
  append basename program code file w =
    (Fulfilled JUndefined,
     {| disk := {| files := <[BUILD_SW_FILE_PATH := text +:+ code]> (files (disk w));
                   noread := noread (disk w); nowrite := nowrite (disk w) |};
        process_env := process_env w;
        log := log w ++ [EvReadFile BUILD_SW_FILE_PATH;
                         EvWriteFile BUILD_SW_FILE_PATH (text +:+ code);
                         EvResolve] |}).
Proof.
  intros (Hd & Hb & Hr)%default_mode_tests Hread Hw.
  unfold append. rewrite Hd, Hb, Hr. exec_unfold. rewrite Hread. exec_unfold.
  unfold js_add; simpl.
  rewrite (Disk_write_ok _ _ _ Hw). exec_unfold. by log_norm.
Qed.

(** Default branch, the existing file is read and the write is
    refused. *)
Lemma append_default_write_refused code file w text :
  default_mode (mode program) = true ->
  Disk_read BUILD_SW_FILE_PATH (disk w) = inr text ->
  BUILD_SW_FILE_PATH ∈ nowrite (disk w) ->
  append basename program code file w =
    (Rejected (IOError EACCES BUILD_SW_FILE_PATH),
     {| disk := disk w;
        process_env := process_env w;
        log := log w ++ [EvReadFile BUILD_SW_FILE_PATH;
                         EvWriteFile BUILD_SW_FILE_PATH (text +:+ code);
                         EvReject (IOError EACCES BUILD_SW_FILE_PATH);
                         EvResolve] |}).
Proof.
  intros (Hd & Hb & Hr)%default_mode_tests Hread Hw.
  unfold append. rewrite Hd, Hb, Hr. exec_unfold. rewrite Hread. exec_unfold.
  unfold js_add; simpl.
  rewrite (Disk_write_refused _ _ _ Hw). exec_unfold. by log_norm.
Qed.

(** Default branch, the read of the existing file fails and the write
    goes through: the callback goes on after [reject]. *)
Lemma append_default_read_failed code file w e :
  default_mode (mode program) = true ->
  Disk_read BUILD_SW_FILE_PATH (disk w) = inl e ->
  BUILD_SW_FILE_PATH ∉ nowrite (disk w) ->
  append basename program code file w =
    (Rejected e,
     {| disk := {| files := <[BUILD_SW_FILE_PATH := "undefined" +:+ code]> (files (disk w));
                   noread := noread (disk w); nowrite := nowrite (disk w) |};
        process_env := process_env w;
        log := log w ++ [EvReadFile BUILD_SW_FILE_PATH;
                         EvReject e;
                         EvWriteFile BUILD_SW_FILE_PATH ("undefined" +:+ code);
                         EvResolve] |}).
Proof.
  intros (Hd & Hb & Hr)%default_mode_tests Hread Hw.
  unfold append. rewrite Hd, Hb, Hr. exec_unfold. rewrite Hread. exec_unfold.
  unfold js_add; simpl.
  rewrite (Disk_write_ok _ _ _ Hw). exec_unfold. by log_norm.
Qed.

(** Default branch, the read fails and the write is refused. *)
Lemma append_default_both_failed code file w e :
  default_mode (mode program) = true ->
  Disk_read BUILD_SW_FILE_PATH (disk w) = inl e ->
  BUILD_SW_FILE_PATH ∈ nowrite (disk w) ->
  append basename program code file w =
    (Rejected e,
     {| disk := disk w;
        process_env := process_env w;
        log := log w ++ [EvReadFile BUILD_SW_FILE_PATH;
                         EvReject e;
                         EvWriteFile BUILD_SW_FILE_PATH ("undefined" +:+ code);
                         EvReject (IOError EACCES BUILD_SW_FILE_PATH);
                         EvResolve] |}).
Proof.
  intros (Hd & Hb & Hr)%default_mode_tests Hread Hw.
  unfold append. rewrite Hd, Hb, Hr. exec_unfold. rewrite Hread. exec_unfold.
  unfold js_add; simpl.
  rewrite (Disk_write_refused _ _ _ Hw). exec_unfold. by log_norm.
Qed.

End Routing.

(** ** Output routing *)

(** C1: when the mode selects none of the named branches (unset or
    unrecognized), build/service-worker.js is the only file read and the
    only file written.  When that read succeeds, the content written is
    the existing content followed directly by the new content; when the
    write goes through as well, the file holds exactly that and nothing
    else on the disk has changed. *)
Theorem default_mode_appends basename program code file w :
  default_mode (mode program) = true ->
  let out := append basename program code file w in
  exists evs,
    log out.2 = log w ++ evs
    /\ read_paths evs = [BUILD_SW_FILE_PATH]
    /\ (written evs).*1 = [BUILD_SW_FILE_PATH]
    /\ forall text,
         Disk_read BUILD_SW_FILE_PATH (disk w) = inr text ->
         written evs = [(BUILD_SW_FILE_PATH, text +:+ code)]
         /\ (BUILD_SW_FILE_PATH ∉ nowrite (disk w) ->
             out.1 = Fulfilled JUndefined
             /\ files (disk out.2)
                = <[BUILD_SW_FILE_PATH := text +:+ code]> (files (disk w))).
Proof.
  intros Hmode out. subst out.
  destruct (Disk_read BUILD_SW_FILE_PATH (disk w)) as [e | text] eqn:Hread;
    destruct (decide (BUILD_SW_FILE_PATH ∈ nowrite (disk w))) as [Hw | Hw].
  - rewrite (append_default_both_failed _ _ _ _ _ _ Hmode Hread Hw); simpl.
    eexists; do 3 (split; [reflexivity |]). discriminate.
  - rewrite (append_default_read_failed _ _ _ _ _ _ Hmode Hread Hw); simpl.
    eexists; do 3 (split; [reflexivity |]). discriminate.
  - rewrite (append_default_write_refused _ _ _ _ _ _ Hmode Hread Hw); simpl.
    eexists; do 3 (split; [reflexivity |]).
    intros text' [= <-]. split; [reflexivity | done].
  - rewrite (append_default_ok _ _ _ _ _ _ Hmode Hread Hw); simpl.
    eexists; do 3 (split; [reflexivity |]).
    intros text' [= <-]. split; [reflexivity |]. intros _. split; reflexivity.
Qed.

Lemma default_mode_appends_witness :
  default_mode JUndefined = true
  /\ Disk_read BUILD_SW_FILE_PATH (disk_of [(BUILD_SW_FILE_PATH, "P;")]) = inr "P;"
  /\ exists evs,
      log (append posix_basename (program_of JUndefined true) "C;" "src/sw.js"
             (world_of (disk_of [(BUILD_SW_FILE_PATH, "P;")]))).2 = [] ++ evs
      /\ written evs = [(BUILD_SW_FILE_PATH, "P;C;")].
Proof.
  assert (Hmode : default_mode (mode (program_of JUndefined true)) = true)
    by reflexivity.
  assert (Hread : Disk_read BUILD_SW_FILE_PATH
                    (disk (world_of (disk_of [(BUILD_SW_FILE_PATH, "P;")]))) = inr "P;")
    by (vm_compute; reflexivity).
  split; [exact Hmode |]. split; [exact Hread |].
  destruct (default_mode_appends posix_basename _ "C;" "src/sw.js"
              (world_of (disk_of [(BUILD_SW_FILE_PATH, "P;")])) Hmode)
    as (evs & Hlog & _ & _ & Hwritten).
  exists evs. split; [exact Hlog | exact (proj1 (Hwritten _ Hread))].
Defined.

(** C2: with mode "dev" the content goes to public/<basename of the entry
    file> and with mode "build" to build/<basename of the entry file>;
    nothing is read, that path is the only one written, and the data
    written is the input content itself.  When the write goes through the
    destination holds exactly the content, whatever it held before, and
    no other file has changed. *)
Theorem dev_build_overwrite basename program code file w dir :
  (mode program = JStr "dev" /\ dir = "public/")
  \/ (mode program = JStr "build" /\ dir = "build/") ->
  let dest := dir +:+ basename file in
  let out := append basename program code file w in
  exists evs,
    log out.2 = log w ++ evs
    /\ read_paths evs = []
    /\ written evs = [(dest, code)]
    /\ (dest ∉ nowrite (disk w) ->
        out.1 = Fulfilled JUndefined
        /\ files (disk out.2) !! dest = Some code
        /\ files (disk out.2) = <[dest := code]> (files (disk w))).
Proof.
  intros Hmode dest out.
  assert (Heq : out = writeFile code dest w).
  { subst out dest. destruct Hmode as [[Hm ->] | [Hm ->]].
    - by rewrite (append_dev _ _ _ _ Hm).
    - by rewrite (append_build _ _ _ _ Hm). }
  rewrite Heq. clear Heq out.
  destruct (decide (dest ∈ nowrite (disk w))) as [Hw | Hw].
  - rewrite (writeFile_refused _ _ _ Hw); simpl.
    eexists; split; [reflexivity |]. repeat split; try reflexivity; done.
  - rewrite (writeFile_ok _ _ _ Hw); simpl.
    eexists; split; [reflexivity |]. repeat split; try reflexivity.
    by rewrite lookup_insert_eq.
Qed.

Lemma dev_build_overwrite_witness :
  (mode (program_of (JStr "dev") true) = JStr "dev" /\ "public/" = "public/")
  /\ exists evs,
      log (append posix_basename (program_of (JStr "dev") true) "C;" "src/sw.js"
             (world_of (disk_of [("public/sw.js", "old")]))).2 = [] ++ evs
      /\ written evs = [("public/sw.js", "C;")].
Proof.
  split; [split; reflexivity |].
  destruct (dev_build_overwrite posix_basename (program_of (JStr "dev") true)
              "C;" "src/sw.js" (world_of (disk_of [("public/sw.js", "old")]))
              "public/" (or_introl (conj eq_refl eq_refl)))
    as (evs & Hlog & _ & Hwritten & _).
  exists evs. split; [exact Hlog | exact Hwritten].
Defined.

(** C3: with mode "replace" the content goes to build/service-worker.js
    for every entry file; nothing is read, that path is the only one
    written, and when the write goes through the file holds exactly the
    new content, whatever it held before. *)
Theorem replace_overwrites_service_worker basename program code file w :
  mode program = JStr "replace" ->
  let out := append basename program code file w in
  exists evs,
    log out.2 = log w ++ evs
    /\ read_paths evs = []
    /\ written evs = [(BUILD_SW_FILE_PATH, code)]
    /\ (BUILD_SW_FILE_PATH ∉ nowrite (disk w) ->
        out.1 = Fulfilled JUndefined
        /\ files (disk out.2) !! BUILD_SW_FILE_PATH = Some code
        /\ files (disk out.2) = <[BUILD_SW_FILE_PATH := code]> (files (disk w))).
Proof.
  intros Hmode out. subst out. rewrite (append_replace _ _ _ _ Hmode).
  destruct (decide (BUILD_SW_FILE_PATH ∈ nowrite (disk w))) as [Hw | Hw].
  - rewrite (writeFile_refused _ _ _ Hw); simpl.
    eexists; split; [reflexivity |]. repeat split; try reflexivity; done.
  - rewrite (writeFile_ok _ _ _ Hw); simpl.
    eexists; split; [reflexivity |]. repeat split; try reflexivity.
    by rewrite lookup_insert_eq.
Qed.

Lemma replace_overwrites_service_worker_witness :
  mode (program_of (JStr "replace") true) = JStr "replace"
  /\ exists evs,
      log (append posix_basename (program_of (JStr "replace") true) "C;" "src/custom.js"
             (world_of (disk_of [(BUILD_SW_FILE_PATH, "P;")]))).2 = [] ++ evs
      /\ written evs = [(BUILD_SW_FILE_PATH, "C;")].
Proof.
  split; [reflexivity |].
  destruct (replace_overwrites_service_worker posix_basename
              (program_of (JStr "replace") true) "C;" "src/custom.js"
              (world_of (disk_of [(BUILD_SW_FILE_PATH, "P;")])) eq_refl)
    as (evs & Hlog & _ & Hwritten & _).
  exists evs. split; [exact Hlog | exact Hwritten].
Defined.

(** C7: in the default mode, over a service worker file holding [P], two
    runs with the same new content [C] leave [P] followed by two copies
    of [C]; unless [C] is empty this is not what one run leaves. *)
Theorem default_append_twice_duplicates basename program C file w P :
  default_mode (mode program) = true ->
  Disk_read BUILD_SW_FILE_PATH (disk w) = inr P ->
  BUILD_SW_FILE_PATH ∉ nowrite (disk w) ->
  let once := (append basename program C file w).2 in
  let twice := (append basename program C file once).2 in
  Disk_read BUILD_SW_FILE_PATH (disk once) = inr (P +:+ C)
  /\ Disk_read BUILD_SW_FILE_PATH (disk twice) = inr (P +:+ C +:+ C)
  /\ (C <> "" ->
      Disk_read BUILD_SW_FILE_PATH (disk twice)
      <> Disk_read BUILD_SW_FILE_PATH (disk once)).
Proof.
  intros Hmode Hread Hw once twice.
  destruct (Disk_read_text _ _ _ Hread) as [_ Hr].
  assert (Honce : Disk_read BUILD_SW_FILE_PATH (disk once) = inr (P +:+ C)).
  { subst once. rewrite (append_default_ok _ _ _ _ _ _ Hmode Hread Hw); simpl.
    unfold Disk_read; simpl. destruct (decide _); [contradiction |].
    by rewrite lookup_insert_eq. }
  assert (Hw1 : BUILD_SW_FILE_PATH ∉ nowrite (disk once)).
  { subst once. by rewrite (append_default_ok _ _ _ _ _ _ Hmode Hread Hw). }
  assert (Hr1 : BUILD_SW_FILE_PATH ∉ noread (disk once)).
  { subst once. by rewrite (append_default_ok _ _ _ _ _ _ Hmode Hread Hw). }
  assert (Htwice : Disk_read BUILD_SW_FILE_PATH (disk twice) = inr (P +:+ C +:+ C)).
  { subst twice. rewrite (append_default_ok _ _ _ _ _ _ Hmode Honce Hw1); simpl.
    unfold Disk_read; simpl. destruct (decide _); [contradiction |].
    by rewrite lookup_insert_eq, append_assoc. }
  split; [exact Honce |]. split; [exact Htwice |].
  intros HC. rewrite Htwice, Honce. intros [= Heq].
  apply HC. rewrite <- append_assoc in Heq. by apply append_fixed in Heq.
Qed.

Lemma default_append_twice_duplicates_witness :
  default_mode JUndefined = true
  /\ Disk_read BUILD_SW_FILE_PATH (disk_of [(BUILD_SW_FILE_PATH, "P;")]) = inr "P;"
  /\ Disk_read BUILD_SW_FILE_PATH
       (disk (append posix_basename (program_of JUndefined true) "C;" "src/sw.js"
                (append posix_basename (program_of JUndefined true) "C;" "src/sw.js"
                   (world_of (disk_of [(BUILD_SW_FILE_PATH, "P;")]))).2).2)
     = inr "P;C;C;".
Proof.
  assert (Hmode : default_mode (mode (program_of JUndefined true)) = true)
    by reflexivity.
  assert (Hread : Disk_read BUILD_SW_FILE_PATH
                    (disk (world_of (disk_of [(BUILD_SW_FILE_PATH, "P;")]))) = inr "P;")
    by (vm_compute; reflexivity).
  assert (Hw : BUILD_SW_FILE_PATH
               ∉ nowrite (disk (world_of (disk_of [(BUILD_SW_FILE_PATH, "P;")]))))
    by apply not_elem_of_empty.
  split; [exact Hmode |]. split; [exact Hread |].
  exact (proj1 (proj2 (default_append_twice_duplicates posix_basename _ "C;"
                         "src/sw.js" _ _ Hmode Hread Hw))).
Defined.

(** ** The whole invocation *)

(** [append] leaves the environment alone and only adds to the log. *)
Lemma writeFile_frame content file w :
  process_env (writeFile content file w).2 = process_env w
  /\ exists evs, log (writeFile content file w).2 = log w ++ evs.
Proof.
  destruct (decide (file ∈ nowrite (disk w))) as [Hw | Hw].
  - rewrite (writeFile_refused _ _ _ Hw); simpl. split; [done | by eexists].
  - rewrite (writeFile_ok _ _ _ Hw); simpl. split; [done | by eexists].
Qed.

Lemma append_frame basename program code file w :
  process_env (append basename program code file w).2 = process_env w
  /\ exists evs, log (append basename program code file w).2 = log w ++ evs.
Proof.
  destruct (default_mode (mode program)) eqn:Hmode.
  - destruct (Disk_read BUILD_SW_FILE_PATH (disk w)) as [e | text] eqn:Hread;
      destruct (decide (BUILD_SW_FILE_PATH ∈ nowrite (disk w))) as [Hw | Hw].
    + rewrite (append_default_both_failed _ _ _ _ _ _ Hmode Hread Hw); simpl.
      split; [done | by eexists].
    + rewrite (append_default_read_failed _ _ _ _ _ _ Hmode Hread Hw); simpl.
      split; [done | by eexists].
    + rewrite (append_default_write_refused _ _ _ _ _ _ Hmode Hread Hw); simpl.
      split; [done | by eexists].
    + rewrite (append_default_ok _ _ _ _ _ _ Hmode Hread Hw); simpl.
      split; [done | by eexists].
  - unfold default_mode in Hmode. unfold append.
    destruct (js_strict_eq (mode program) "dev"); [apply writeFile_frame |].
    destruct (js_strict_eq (mode program) "build"); [apply writeFile_frame |].
    destruct (js_strict_eq (mode program) "replace"); [apply writeFile_frame |].
    discriminate.
Qed.

(** [compile] never touches the disk or the environment, and starts by
    running the bundler. *)
Lemma compile_frame path_join cwd webpack_run program entry w :
  let out := compile path_join cwd webpack_run program entry w in
  disk out.2 = disk w
  /\ process_env out.2 = process_env w
  /\ exists evs,
       log out.2 = log w ++ EvRun (webpack_config path_join cwd program entry) :: evs
       /\ written evs = [].
Proof.
  unfold compile, compiler_run. exec_unfold.
  destruct (webpack_run _ _ _) as [err | stats data]; exec_unfold.
  - repeat split. eexists. by log_norm.
  - destruct (hasErrors stats || hasWarnings stats); exec_unfold.
    + repeat split. eexists. by log_norm.
    + destruct (data !! BUNDLE_FILE_NAME); exec_unfold;
        repeat split; eexists; by log_norm.
Qed.

Lemma action_env basename path_join cwd webpack_run program file w :
  let out := action basename path_join cwd webpack_run program file w in
  process_env out.2
    = <["NODE_ENV" := env_value program]>
        (<["BABEL_ENV" := env_value program]> (process_env w))
  /\ exists evs,
       log out.2
       = log w ++ EvSetEnv "BABEL_ENV" (env_value program)
                  :: EvSetEnv "NODE_ENV" (env_value program)
                  :: first_call path_join cwd program file :: evs.
Proof.
  unfold action, env_value, first_call.
  set (v := if js_strict_eq (mode program) "dev" then "development" else "production").
  set (w1 := setenv "NODE_ENV" v (setenv "BABEL_ENV" v w)).
  assert (Hw1 : (if js_strict_eq (mode program) "dev"
                 then setenv "NODE_ENV" "development" (setenv "BABEL_ENV" "development" w)
                 else setenv "NODE_ENV" "production" (setenv "BABEL_ENV" "production" w))
                = w1).
  { subst w1 v. by destruct (js_strict_eq (mode program) "dev"). }
  rewrite Hw1. clear Hw1.
  assert (Hlog1 : forall evs,
             log w1 ++ evs = log w ++ EvSetEnv "BABEL_ENV" v :: EvSetEnv "NODE_ENV" v :: evs).
  { intros evs. subst w1. simpl. by rewrite <- !app_assoc. }
  assert (Henv1 : process_env w1
                  = <["NODE_ENV" := v]> (<["BABEL_ENV" := v]> (process_env w))) by done.
  clearbody w1. unfold promise_then.
  destruct (skipCompile program).
  - destruct (Disk_read file (disk w1)) as [e | text] eqn:Hread.
    + rewrite (read_failed _ _ _ Hread); simpl.
      split; [done |]. eexists. by rewrite Hlog1.
    + rewrite (read_ok _ _ _ Hread); simpl.
      match goal with |- context [append ?b ?p ?c ?f ?w0] =>
        destruct (append_frame b p c f w0) as [He [evs Hl]] end.
      rewrite He, Hl; simpl. split; [done |].
      eexists. rewrite <- app_assoc. by rewrite Hlog1.
  - destruct (compile_frame path_join cwd webpack_run program file w1)
      as (_ & He & evs & Hl & _).
    destruct (compile path_join cwd webpack_run program file w1) as [r w2].
    simpl in He, Hl.
    destruct r as [| [result stats] | reason]; simpl.
    + split; [by rewrite He |]. eexists. by rewrite Hl, Hlog1.
    + destruct (append_frame basename program result file w2) as [He2 [evs2 Hl2]].
      rewrite He2, Hl2, He, Hl. split; [done |].
      eexists. rewrite <- app_assoc. by rewrite Hlog1.
    + split; [by rewrite He |]. eexists. by rewrite Hl, Hlog1.
Qed.

(** C9: every invocation assigns BABEL_ENV and NODE_ENV, both to
    "development" when the mode is the string "dev" and both to
    "production" otherwise; the two assignments are the first things that
    happen, the first file read or bundler run comes right after them,
    and the invocation ends with the environment they have set. *)
Theorem action_sets_environment_first basename path_join cwd webpack_run program file w :
  let value := if js_strict_eq (mode program) "dev"
               then "development" else "production" in
  let out := action basename path_join cwd webpack_run program file w in
  process_env out.2 !! "BABEL_ENV" = Some value
  /\ process_env out.2 !! "NODE_ENV" = Some value
  /\ exists evs,
       log out.2
       = log w ++ EvSetEnv "BABEL_ENV" value :: EvSetEnv "NODE_ENV" value
                  :: (if skipCompile program then EvReadFile file
                      else EvRun (webpack_config path_join cwd program file))
                  :: evs.
Proof.
  intros value out.
  destruct (action_env basename path_join cwd webpack_run program file w)
    as [Henv Hlog].
  fold out in Henv, Hlog. rewrite Henv.
  split; [| split].
  - rewrite lookup_insert_ne by done. by rewrite lookup_insert_eq.
  - by rewrite lookup_insert_eq.
  - exact Hlog.
Qed.

(** The invocation under [--skip-compile]. *)
Lemma action_skip basename path_join cwd webpack_run program file w :
  skipCompile program = true ->
  action basename path_join cwd webpack_run program file w
  = promise_then (read file) (fun result => append basename program (ToString result) file)
      (setenv "NODE_ENV" (env_value program)
         (setenv "BABEL_ENV" (env_value program) w)).
Proof.
  intros Hskip. unfold action, env_value. rewrite Hskip.
  by destruct (js_strict_eq (mode program) "dev").
Qed.

(** C6: under skip-compile, when the entry file does not exist [read]
    rejects with an I/O error for that path, the invocation rejects with
    the same error, no write is attempted and the disk is what it was. *)
Theorem missing_entry_leaves_disk_untouched
    basename path_join cwd webpack_run program file w :
  skipCompile program = true ->
  files (disk w) !! file = None ->
  let out := action basename path_join cwd webpack_run program file w in
  exists code,
    (read file w).1 = Rejected (IOError code file)
    /\ out.1 = Rejected (IOError code file)
    /\ disk out.2 = disk w
    /\ exists evs, log out.2 = log w ++ evs /\ written evs = [].
Proof.
  intros Hskip Hmissing out.
  destruct (Disk_read_missing _ _ Hmissing) as [code Hread].
  exists code. split.
  { by rewrite (read_failed _ _ _ Hread). }
  subst out. rewrite (action_skip _ _ _ _ _ _ _ Hskip). unfold promise_then.
  rewrite (read_failed _ (setenv _ _ (setenv _ _ w)) _ Hread); simpl.
  repeat split. eexists. split; [by log_norm | reflexivity].
Qed.

Lemma missing_entry_leaves_disk_untouched_witness :
  skipCompile (program_of JUndefined true) = true
  /\ files (disk_of [(BUILD_SW_FILE_PATH, "P;")]) !! "src/sw.js" = None
  /\ exists code,
       (action posix_basename plain_join "/app" (fixed_bundler (RunErr (JsError "unused")))
          (program_of JUndefined true) "src/sw.js"
          (world_of (disk_of [(BUILD_SW_FILE_PATH, "P;")]))).1
       = Rejected (IOError code "src/sw.js").
Proof.
  assert (Hmissing : files (disk (world_of (disk_of [(BUILD_SW_FILE_PATH, "P;")])))
                       !! "src/sw.js" = None)
    by (vm_compute; reflexivity).
  split; [reflexivity |]. split; [exact Hmissing |].
  destruct (missing_entry_leaves_disk_untouched posix_basename plain_join "/app"
              (fixed_bundler (RunErr (JsError "unused"))) (program_of JUndefined true)
              "src/sw.js" _ eq_refl Hmissing)
    as (code & _ & Hout & _).
  exists code. exact Hout.
Defined.

(** ** The bundler adapter *)

(** C4: when the run hands back a report with warnings, with or without
    errors, [compile] rejects and never resolves; the reason is an Error
    whose message is the report formatted with error details and warnings
    switched on.  The disk is not touched. *)
Theorem warnings_are_fatal path_join cwd webpack_run program entry w stats data :
  webpack_run (webpack_config path_join cwd program entry) (disk w) (process_env w)
  = RunStats stats data ->
  hasWarnings stats = true ->
  let out := compile path_join cwd webpack_run program entry w in
  let report := toString stats {| errorDetails := true; warnings := true |} in
  out.1 = Rejected (JsError report)
  /\ disk out.2 = disk w
  /\ log out.2 = log w ++ [EvRun (webpack_config path_join cwd program entry);
                           EvReject (JsError report)].
Proof.
  intros Hrun Hwarn out report. subst out report.
  unfold compile, compiler_run. exec_unfold. rewrite Hrun, Hwarn, orb_true_r.
  exec_unfold. repeat split. by log_norm.
Qed.

Lemma warnings_are_fatal_witness :
  hasWarnings warned_stats = true
  /\ (compile plain_join "/app" (fixed_bundler (RunStats warned_stats ∅))
        (program_of (JStr "build") false) "src/sw.js" (world_of empty_disk)).1
     = Rejected (JsError "WARNING in ./src/sw.js").
Proof.
  split; [reflexivity |].
  exact (proj1 (warnings_are_fatal plain_join "/app"
                  (fixed_bundler (RunStats warned_stats ∅))
                  (program_of (JStr "build") false) "src/sw.js" (world_of empty_disk)
                  warned_stats ∅ eq_refl eq_refl)).
Defined.

(** ** Errors in the file helpers *)

(** C5: the claim asks that a failed read of build/service-worker.js in
    the default branch be not followed by a write.  The code does
    otherwise: after [reject] the callback goes on, writes "undefined"
    followed by the new content to build/service-worker.js and calls
    [resolve]; the promise keeps the first rejection. *)
Theorem failed_read_is_followed_by_write basename program code file w e :
  default_mode (mode program) = true ->
  Disk_read BUILD_SW_FILE_PATH (disk w) = inl e ->
  let out := append basename program code file w in
  out.1 = Rejected e
  /\ (exists before after,
        log out.2
        = log w ++ before
            ++ EvWriteFile BUILD_SW_FILE_PATH ("undefined" +:+ code) :: after
        /\ rejections before = [e]
        /\ resolutions after = 1)
  /\ (BUILD_SW_FILE_PATH ∉ nowrite (disk w) ->
      files (disk out.2) !! BUILD_SW_FILE_PATH = Some ("undefined" +:+ code)).
Proof.
  intros Hmode Hread out. subst out.
  destruct (decide (BUILD_SW_FILE_PATH ∈ nowrite (disk w))) as [Hw | Hw].
  - rewrite (append_default_both_failed _ _ _ _ _ _ Hmode Hread Hw); simpl.
    split; [reflexivity |]. split; [| done].
    exists [EvReadFile BUILD_SW_FILE_PATH; EvReject e],
           [EvReject (IOError EACCES BUILD_SW_FILE_PATH); EvResolve].
    repeat split.
  - rewrite (append_default_read_failed _ _ _ _ _ _ Hmode Hread Hw); simpl.
    split; [reflexivity |]. split.
    + exists [EvReadFile BUILD_SW_FILE_PATH; EvReject e], [EvResolve].
      repeat split.
    + intros _. by rewrite lookup_insert_eq.
Qed.

Lemma failed_read_is_followed_by_write_witness :
  default_mode JUndefined = true
  /\ Disk_read BUILD_SW_FILE_PATH empty_disk = inl (IOError ENOENT BUILD_SW_FILE_PATH)
  /\ files (disk (append posix_basename (program_of JUndefined true) "C;" "src/sw.js"
                    (world_of empty_disk)).2) !! BUILD_SW_FILE_PATH
     = Some "undefinedC;".
Proof.
  assert (Hmode : default_mode (mode (program_of JUndefined true)) = true)
    by reflexivity.
  assert (Hread : Disk_read BUILD_SW_FILE_PATH (disk (world_of empty_disk))
                  = inl (IOError ENOENT BUILD_SW_FILE_PATH))
    by (vm_compute; reflexivity).
  split; [exact Hmode |]. split; [exact Hread |].
  apply (proj2 (proj2 (failed_read_is_followed_by_write posix_basename _ "C;"
                         "src/sw.js" _ _ Hmode Hread))).
  apply not_elem_of_empty.
Defined.

(** ** Case of the mode *)

Lemma Canonicalize_lower_char ch : Canonicalize (lower_char ch) = Canonicalize ch.
Proof. destruct ch as [[] [] [] [] [] [] [] []]; reflexivity. Qed.

Lemma canonical_lower s : canonical (lower s) = canonical s.
Proof.
  induction s as [| ch s IH]; [reflexivity |].
  simpl. by rewrite Canonicalize_lower_char, IH.
Qed.

(** A value that is one of the three names up to the case of its letters
    is matched by the regular expression, and the match is the value as
    typed. *)
Lemma mode_regex_accepts val :
  lower val ∈ ["dev"; "build"; "replace"] ->
  mode_regex_exec val = Some val.
Proof.
  intros Hin. unfold mode_regex_exec.
  assert (Hex : existsb (fun alt => String.eqb (canonical val) (canonical alt))
                  ["dev"; "build"; "replace"] = true).
  { rewrite <- (canonical_lower val).
    apply existsb_exists. exists (lower val). split.
    - by apply list_elem_of_In.
    - apply String.eqb_eq. apply list_elem_of_In in Hin.
      destruct Hin as [<- | [<- | [<- | []]]]; reflexivity. }
  by rewrite Hex.
Qed.

Lemma not_lowercase_name_is_default val :
  val ∉ ["dev"; "build"; "replace"] ->
  default_mode (JStr val) = true.
Proof.
  intros Hnot. unfold default_mode; simpl.
  destruct (String.eqb_spec val "dev") as [-> | _]; [exfalso; apply Hnot; set_solver |].
  destruct (String.eqb_spec val "build") as [-> | _]; [exfalso; apply Hnot; set_solver |].
  destruct (String.eqb_spec val "replace") as [-> | _]; [exfalso; apply Hnot; set_solver |].
  reflexivity.
Qed.

(** In the default branch [append] does not look at the mode any
    further. *)
Lemma append_default_any basename p q code file :
  default_mode (mode p) = true ->
  default_mode (mode q) = true ->
  append basename p code file = append basename q code file.
Proof.
  intros (Hd & Hb & Hr)%default_mode_tests (Hd' & Hb' & Hr')%default_mode_tests.
  unfold append. by rewrite Hd, Hb, Hr, Hd', Hb', Hr'.
Qed.

(** C10: a mode value that is dev, build or replace up to the case of
    its letters, but not in lower case throughout, is accepted by the
    option's regular expression and stored as typed; the strict
    comparisons with the lower-case names then all fail, so [append]
    goes the way of an unset mode and the invocation sets both
    environment variables to "production". *)
Theorem mixed_case_mode_is_default
    basename path_join cwd webpack_run program val def code file w :
  lower val ∈ ["dev"; "build"; "replace"] ->
  val ∉ ["dev"; "build"; "replace"] ->
  mode program = mode_coerce val def ->
  let out := action basename path_join cwd webpack_run program file w in
  mode program = JStr val
  /\ append basename program code file w
     = append basename (set_mode JUndefined program) code file w
  /\ process_env out.2 !! "BABEL_ENV" = Some "production"
  /\ process_env out.2 !! "NODE_ENV" = Some "production".
Proof.
  intros Hlower Hnot Hmode out.
  unfold mode_coerce in Hmode. rewrite (mode_regex_accepts _ Hlower) in Hmode.
  pose proof (not_lowercase_name_is_default _ Hnot) as Hdefault.
  rewrite <- Hmode in Hdefault.
  split; [exact Hmode |]. split.
  { by rewrite (append_default_any basename program (set_mode JUndefined program)). }
  destruct (action_env basename path_join cwd webpack_run program file w)
    as [Henv _].
  fold out in Henv. rewrite Henv.
  assert (Hvalue : env_value program = "production").
  { unfold env_value. apply default_mode_tests in Hdefault as (-> & _). reflexivity. }
  rewrite Hvalue. split.
  - rewrite lookup_insert_ne by done. by rewrite lookup_insert_eq.
  - by rewrite lookup_insert_eq.
Qed.

Lemma mixed_case_mode_is_default_witness :
  (lower "DEV" ∈ ["dev"; "build"; "replace"])
  /\ ("DEV" ∉ ["dev"; "build"; "replace"])
  /\ mode_coerce "DEV" JUndefined = JStr "DEV"
  /\ append posix_basename (program_of (mode_coerce "DEV" JUndefined) true)
       "C;" "src/sw.js" (world_of empty_disk)
     = append posix_basename (set_mode JUndefined (program_of (mode_coerce "DEV" JUndefined) true))
         "C;" "src/sw.js" (world_of empty_disk).
Proof.
  assert (Hlower : lower "DEV" ∈ ["dev"; "build"; "replace"])
    by (vm_compute; apply list_elem_of_here).
  assert (Hnot : "DEV" ∉ ["dev"; "build"; "replace"])
    by (apply (bool_decide_unpack _); vm_compute; exact I).
  split; [exact Hlower |]. split; [exact Hnot |].
  destruct (mixed_case_mode_is_default posix_basename plain_join "/app"
              (fixed_bundler (RunErr (JsError "unused")))
              (program_of (mode_coerce "DEV" JUndefined) true)
              "DEV" JUndefined "C;" "src/sw.js" (world_of empty_disk)
              Hlower Hnot eq_refl)
    as (Hmode & Happend & _).
  split; [exact Hmode | exact Happend].
Defined.

(** * Further properties of the helpers *)

(** ** [append] and [writeFile] *)

Lemma destination_default basename program file :
  default_mode (mode program) = true ->
  destination basename program file = BUILD_SW_FILE_PATH.
Proof.
  intros (Hd & Hb & _)%default_mode_tests. unfold destination. by rewrite Hd, Hb.
Qed.

(** Outside the default branch [append] is one call of [writeFile]. *)
Lemma append_overwrite basename program code file :
  default_mode (mode program) = false ->
  append basename program code file
  = writeFile code (destination basename program file).
Proof.
  unfold default_mode, append, destination.
  destruct (js_strict_eq (mode program) "dev"); [done |].
  destruct (js_strict_eq (mode program) "build"); [done |].
  destruct (js_strict_eq (mode program) "replace"); [done | discriminate].
Qed.

(** The six ways [append] can go: default branch with the read and the
    write succeeding or not, or one of the overwriting branches with the
    write succeeding or not.  Each goal is left with [append] replaced by
    its result. *)
Ltac append_cases basename program code file w :=
  let Hmode := fresh "Hmode" in
  let Hread := fresh "Hread" in
  let Hw := fresh "Hw" in
  destruct (default_mode (mode program)) eqn:Hmode;
  [ rewrite ?(destination_default basename program file Hmode);
    destruct (Disk_read BUILD_SW_FILE_PATH (disk w)) as [? | ?] eqn:Hread;
    destruct (decide (BUILD_SW_FILE_PATH ∈ nowrite (disk w))) as [Hw | Hw];
    [ rewrite (append_default_both_failed basename program code file w _ Hmode Hread Hw)
    | rewrite (append_default_read_failed basename program code file w _ Hmode Hread Hw)
    | rewrite (append_default_write_refused basename program code file w _ Hmode Hread Hw)
    | rewrite (append_default_ok basename program code file w _ Hmode Hread Hw) ]
  | rewrite (append_overwrite basename program code file Hmode);
    destruct (decide (destination basename program file ∈ nowrite (disk w)))
      as [Hw | Hw];
    [ rewrite (writeFile_refused code _ w Hw)
    | rewrite (writeFile_ok code _ w Hw) ] ];
  simpl.

(** X1: In every mode and whatever fails, [append] calls [fs.writeFile]
    exactly once, on the destination of the mode; it never runs the
    bundler, never changes a file other than the destination, and leaves
    the environment alone. *)
Theorem append_writes_destination_once basename program code file w :
  let out := append basename program code file w in
  let dest := destination basename program file in
  (exists evs data,
     log out.2 = log w ++ evs
     /\ written evs = [(dest, data)]
     /\ runs evs = [])
  /\ (forall path, path <> dest ->
        files (disk out.2) !! path = files (disk w) !! path)
  /\ process_env out.2 = process_env w.
Proof.
  intros out dest. subst out dest.
  append_cases basename program code file w;
    (split; [do 2 eexists; split; [reflexivity | by split] |]);
    (split; [| reflexivity]); intros path Hne;
    try reflexivity; by rewrite lookup_insert_ne.
Qed.

(** X2: When the destination refuses the write, [append] rejects in every
    mode and the disk is exactly what it was. *)
Theorem append_refused_write_changes_nothing basename program code file w :
  destination basename program file ∈ nowrite (disk w) ->
  let out := append basename program code file w in
  (exists reason, out.1 = Rejected reason) /\ disk out.2 = disk w.
Proof.
  intros Hrefused out. subst out. revert Hrefused.
  append_cases basename program code file w; intros Hrefused;
    try contradiction; (split; [by eexists | reflexivity]).
Qed.

Lemma append_refused_write_changes_nothing_witness :
  let w := {| disk := {| files := {[ "public/sw.js" := "old" ]};
                         noread := ∅;
                         nowrite := {[ "public/sw.js" ]} |};
              process_env := ∅; log := [] |} in
  (destination posix_basename (program_of (JStr "dev") true) "src/sw.js"
   ∈ nowrite (disk w))
  /\ disk (append posix_basename (program_of (JStr "dev") true) "C;" "src/sw.js" w).2
     = disk w.
Proof.
  intros w.
  assert (Hrefused : destination posix_basename (program_of (JStr "dev") true)
                       "src/sw.js" ∈ nowrite (disk w))
    by (apply (bool_decide_unpack _); vm_compute; exact I).
  split; [exact Hrefused |].
  exact (proj2 (append_refused_write_changes_nothing posix_basename
                  (program_of (JStr "dev") true) "C;" "src/sw.js" w Hrefused)).
Defined.

(** X3: [append] fulfils exactly when every file-system call it makes
    succeeds: the destination accepts the write and, in the default
    branch, the existing service worker can be read.  Otherwise it
    rejects; it never stays pending. *)
Theorem append_fulfilled_iff basename program code file w :
  let out := append basename program code file w in
  (out.1 = Fulfilled JUndefined
   <-> (destination basename program file ∉ nowrite (disk w))
       /\ (default_mode (mode program) = true ->
           exists text, Disk_read BUILD_SW_FILE_PATH (disk w) = inr text))
  /\ out.1 <> Pending
  /\ (out.1 <> Fulfilled JUndefined -> exists reason, out.1 = Rejected reason).
Proof.
  intros out. subst out.
  append_cases basename program code file w.
  - split; [| split; [done | by eexists]].
    split; [done |]. intros [Hn _]. contradiction.
  - split; [| split; [done | by eexists]].
    split; [done |]. intros [_ Hr]. destruct (Hr eq_refl) as [text [=]].
  - split; [| split; [done | by eexists]].
    split; [done |]. intros [Hn _]. contradiction.
  - split; [| split; [done | done]].
    split; [| done]. intros _. split; [done | by eexists].
  - split; [| split; [done | by eexists]].
    split; [done |]. intros [Hn _]. contradiction.
  - split; [| split; [done | done]].
    split; [| done]. intros _. split; [done | discriminate].
Qed.

Lemma append_fulfilled_iff_witness :
  (append posix_basename (program_of JUndefined true) "C;" "src/sw.js"
     (world_of (disk_of [(BUILD_SW_FILE_PATH, "P;")]))).1 = Fulfilled JUndefined.
Proof.
  apply (proj1 (append_fulfilled_iff posix_basename (program_of JUndefined true)
                  "C;" "src/sw.js" (world_of (disk_of [(BUILD_SW_FILE_PATH, "P;")])))).
  split.
  - apply not_elem_of_empty.
  - intros _. exists "P;". vm_compute. reflexivity.
Defined.

(** State of the disk after [append], in the two cases where it changes
    a file. *)
Lemma append_disk_overwrite basename program code file w :
  default_mode (mode program) = false ->
  disk (append basename program code file w).2
  = if decide (destination basename program file ∈ nowrite (disk w)) then disk w
    else {| files := <[destination basename program file := code]> (files (disk w));
            noread := noread (disk w); nowrite := nowrite (disk w) |}.
Proof.
  intros Hmode. rewrite (append_overwrite _ _ _ _ Hmode).
  destruct (decide _) as [Hw | Hw].
  - by rewrite (writeFile_refused _ _ _ Hw).
  - by rewrite (writeFile_ok _ _ _ Hw).
Qed.

Lemma append_disk_default basename program code file w text :
  default_mode (mode program) = true ->
  Disk_read BUILD_SW_FILE_PATH (disk w) = inr text ->
  disk (append basename program code file w).2
  = if decide (BUILD_SW_FILE_PATH ∈ nowrite (disk w)) then disk w
    else {| files := <[BUILD_SW_FILE_PATH := text +:+ code]> (files (disk w));
            noread := noread (disk w); nowrite := nowrite (disk w) |}.
Proof.
  intros Hmode Hread. destruct (decide _) as [Hw | Hw].
  - by rewrite (append_default_write_refused _ _ _ _ _ _ Hmode Hread Hw).
  - by rewrite (append_default_ok _ _ _ _ _ _ Hmode Hread Hw).
Qed.

(** X4: In the three overwriting modes the last run wins: a run with
    content [c1] followed by a run with content [c2] on the same entry
    file leaves the disk that the run with [c2] alone leaves.  With
    [c1 = c2] this says that repeating a run changes nothing further. *)
Theorem overwrite_last_run_wins basename program c1 c2 file w :
  default_mode (mode program) = false ->
  let first := (append basename program c1 file w).2 in
  disk (append basename program c2 file first).2
  = disk (append basename program c2 file w).2.
Proof.
  intros Hmode first. subst first.
  rewrite !(append_disk_overwrite _ _ _ _ _ Hmode).
  destruct (decide (destination basename program file ∈ nowrite (disk w)))
    as [Hw | Hw]; simpl.
  - destruct (decide _); [done | contradiction].
  - destruct (decide _); [contradiction |]. simpl. by rewrite insert_insert_eq.
Qed.

Lemma overwrite_last_run_wins_witness :
  default_mode (mode (program_of (JStr "replace") true)) = false
  /\ disk (append posix_basename (program_of (JStr "replace") true) "B;" "src/sw.js"
             (append posix_basename (program_of (JStr "replace") true) "A;" "src/sw.js"
                (world_of empty_disk)).2).2
     = disk (append posix_basename (program_of (JStr "replace") true) "B;" "src/sw.js"
               (world_of empty_disk)).2.
Proof.
  split; [reflexivity |].
  exact (overwrite_last_run_wins posix_basename (program_of (JStr "replace") true)
           "A;" "B;" "src/sw.js" (world_of empty_disk) eq_refl).
Defined.

(** X5: In the default mode runs compose by concatenation: over a readable
    service worker file, a run with [c1] followed by a run with [c2]
    leaves the disk that one run with [c1] followed by [c2] leaves. *)
Theorem default_runs_compose basename program c1 c2 file w text :
  default_mode (mode program) = true ->
  Disk_read BUILD_SW_FILE_PATH (disk w) = inr text ->
  let first := (append basename program c1 file w).2 in
  disk (append basename program c2 file first).2
  = disk (append basename program (c1 +:+ c2) file w).2.
Proof.
  intros Hmode Hread first.
  destruct (Disk_read_text _ _ _ Hread) as [_ Hr].
  rewrite (append_disk_default _ _ (c1 +:+ c2) _ _ _ Hmode Hread).
  assert (Hfirst : disk first
                   = if decide (BUILD_SW_FILE_PATH ∈ nowrite (disk w)) then disk w
                     else {| files := <[BUILD_SW_FILE_PATH := text +:+ c1]> (files (disk w));
                             noread := noread (disk w); nowrite := nowrite (disk w) |})
    by apply (append_disk_default _ _ _ _ _ _ Hmode Hread).
  clearbody first.
  destruct (decide (BUILD_SW_FILE_PATH ∈ nowrite (disk w))) as [Hw | Hw].
  - assert (Hread1 : Disk_read BUILD_SW_FILE_PATH (disk first) = inr text)
      by (by rewrite Hfirst).
    rewrite (append_disk_default _ _ _ _ _ _ Hmode Hread1), Hfirst.
    destruct (decide _); [done | contradiction].
  - assert (Hread1 : Disk_read BUILD_SW_FILE_PATH (disk first) = inr (text +:+ c1)).
    { rewrite Hfirst. unfold Disk_read; simpl.
      destruct (decide _); [contradiction |]. by rewrite lookup_insert_eq. }
    rewrite (append_disk_default _ _ _ _ _ _ Hmode Hread1), Hfirst; simpl.
    destruct (decide _); [contradiction |]. simpl.
    by rewrite insert_insert_eq, append_assoc.
Qed.

Lemma default_runs_compose_witness :
  default_mode (mode (program_of JUndefined true)) = true
  /\ Disk_read BUILD_SW_FILE_PATH (disk_of [(BUILD_SW_FILE_PATH, "P;")]) = inr "P;"
  /\ disk (append posix_basename (program_of JUndefined true) "B;" "src/sw.js"
             (append posix_basename (program_of JUndefined true) "A;" "src/sw.js"
                (world_of (disk_of [(BUILD_SW_FILE_PATH, "P;")]))).2).2
     = disk (append posix_basename (program_of JUndefined true) ("A;" +:+ "B;")
               "src/sw.js" (world_of (disk_of [(BUILD_SW_FILE_PATH, "P;")]))).2.
Proof.
  assert (Hread : Disk_read BUILD_SW_FILE_PATH
                    (disk (world_of (disk_of [(BUILD_SW_FILE_PATH, "P;")]))) = inr "P;")
    by (vm_compute; reflexivity).
  split; [reflexivity |]. split; [exact Hread |].
  exact (default_runs_compose posix_basename (program_of JUndefined true)
           "A;" "B;" "src/sw.js" _ "P;" eq_refl Hread).
Defined.

(** ** [read] *)

(** X6: [read] makes one call of [fs.readFile] on the entry file and nothing
    else to the outside: no write, no bundler run, disk and environment
    unchanged.  It fulfils with the text when the file can be read and
    rejects with the error of the file system otherwise; the call of
    [resolve] that follows [reject] does not turn the rejection into a
    fulfilment. *)
Theorem read_outcome entry w :
  let out := read entry w in
  out.1 = match Disk_read entry (disk w) with
          | inr text => Fulfilled (JStr text)
          | inl e => Rejected e
          end
  /\ disk out.2 = disk w
  /\ process_env out.2 = process_env w
  /\ exists evs,
       log out.2 = log w ++ evs
       /\ read_paths evs = [entry]
       /\ written evs = []
       /\ runs evs = []
       /\ length (rejections evs) <= 1.
Proof.
  intros out. subst out.
  destruct (Disk_read entry (disk w)) as [e | text] eqn:Hread.
  - rewrite (read_failed _ _ _ Hread); simpl.
    do 3 (split; [reflexivity |]). eexists; split; [reflexivity |].
    repeat split; simpl; lia.
  - rewrite (read_ok _ _ _ Hread); simpl.
    do 3 (split; [reflexivity |]). eexists; split; [reflexivity |].
    repeat split; simpl; lia.
Qed.

(** ** [compile] *)

Section Compile.

Variable path_join : string -> string -> string.
Variable cwd : string.
Variable webpack_run : WebpackConfig -> Disk -> gmap string string -> RunOutcome.
Variable program : Program.

(** The result of [compile], by what the run hands to the callback. *)
Lemma compile_eq entry w :
  compile path_join cwd webpack_run program entry w
  = let config := webpack_config path_join cwd program entry in
    let after ev := {| disk := disk w; process_env := process_env w;
                       log := log w ++ [EvRun config; ev] |} in
    match webpack_run config (disk w) (process_env w) with
    | RunErr err => (Rejected err, after (EvReject err))
    | RunStats stats data =>
        if hasErrors stats || hasWarnings stats
        then (Rejected (JsError (full_report stats)),
              after (EvReject (JsError (full_report stats))))
        else match data !! BUNDLE_FILE_NAME with
             | Some result => (Fulfilled (result, stats), after EvResolve)
             | None => (Pending, after (EvUncaught (TypeError "toString")))
             end
    end.
Proof.
  unfold compile, compiler_run, full_report. exec_unfold.
  destruct (webpack_run _ _ _) as [err | stats data]; exec_unfold.
  - by log_norm.
  - destruct (hasErrors stats || hasWarnings stats); exec_unfold; [by log_norm |].
    destruct (data !! BUNDLE_FILE_NAME); exec_unfold; by log_norm.
Qed.

(** X7: [compile] fulfils exactly when the run hands back a report with
    neither errors nor warnings and the in-memory output holds
    bundle.js; it then fulfils with the text of that bundle and the
    report. *)
Theorem compile_fulfilled_iff entry w result stats :
  (compile path_join cwd webpack_run program entry w).1 = Fulfilled (result, stats)
  <-> exists data,
        webpack_run (webpack_config path_join cwd program entry)
          (disk w) (process_env w) = RunStats stats data
        /\ hasErrors stats = false
        /\ hasWarnings stats = false
        /\ data !! BUNDLE_FILE_NAME = Some result.
Proof.
  rewrite compile_eq; simpl.
  destruct (webpack_run _ _ _) as [err | stats' data]; simpl.
  - split; [discriminate | by intros (? & [=] & _)].
  - destruct (hasErrors stats') eqn:He, (hasWarnings stats') eqn:Hw; simpl;
      try (split; [discriminate | intros (? & [= <- <-] & ? & ? & ?); congruence]).
    destruct (data !! BUNDLE_FILE_NAME) as [text |] eqn:Hb; simpl.
    + split.
      * intros [= <- <-]. by exists data.
      * intros (? & [= <- <-] & _ & _ & Hb'). congruence.
    + split; [discriminate | intros (? & [= <- <-] & _ & _ & ?); congruence].
Qed.

(** X8: [compile] rejects with the error of the run itself when the run
    fails, and with an Error carrying the full report when the report has
    errors or warnings; it rejects for no other reason. *)
Theorem compile_rejected_iff entry w reason :
  (compile path_join cwd webpack_run program entry w).1 = Rejected reason
  <-> webpack_run (webpack_config path_join cwd program entry)
        (disk w) (process_env w) = RunErr reason
      \/ exists stats data,
           webpack_run (webpack_config path_join cwd program entry)
             (disk w) (process_env w) = RunStats stats data
           /\ hasErrors stats || hasWarnings stats = true
           /\ reason = JsError (full_report stats).
Proof.
  rewrite compile_eq; simpl.
  destruct (webpack_run _ _ _) as [err | stats data]; simpl.
  - split.
    + intros [= <-]. by left.
    + intros [[= <-] | (? & ? & [=] & _)]. reflexivity.
  - destruct (hasErrors stats || hasWarnings stats) eqn:Hdirty; simpl.
    + split.
      * intros [= <-]. right. by exists stats, data.
      * intros [[=] | (? & ? & [= <- <-] & _ & ->)]. reflexivity.
    + destruct (data !! BUNDLE_FILE_NAME); simpl;
        (split; [discriminate
                | intros [[=] | (? & ? & [= <- <-] & Hd & _)]; congruence]).
Qed.

(** X9: After starting the run [compile] does exactly one thing: it calls
    [reject], or [resolve], or fails on the missing bundle.  It never
    calls both [reject] and [resolve], never reads or writes a file
    itself, and leaves the disk and the environment as they were. *)
Theorem compile_signals_once entry w :
  let out := compile path_join cwd webpack_run program entry w in
  disk out.2 = disk w
  /\ process_env out.2 = process_env w
  /\ exists ev,
       log out.2 = log w ++ [EvRun (webpack_config path_join cwd program entry); ev]
       /\ length (rejections [ev]) + resolutions [ev] <= 1
       /\ written [ev] = []
       /\ read_paths [ev] = []
       /\ (resolutions [ev] = 1 <-> exists value, out.1 = Fulfilled value)
       /\ (length (rejections [ev]) = 1 <-> exists reason, out.1 = Rejected reason).
Proof.
  intros out. subst out. rewrite compile_eq; simpl.
  destruct (webpack_run _ _ _) as [err | stats data]; simpl;
    [| destruct (hasErrors stats || hasWarnings stats); simpl;
       [| destruct (data !! BUNDLE_FILE_NAME); simpl ] ];
    (do 2 (split; [reflexivity |])); (eexists; split; [reflexivity |]); simpl;
    repeat split;
    first [ done | (unfold resolutions; simpl; lia) | (intros _; by eexists)
          | (intros [? [=]]) ].
Qed.

End Compile.

Lemma compile_fulfilled_iff_witness :
  (compile plain_join "/app"
     (fixed_bundler (RunStats clean_stats {[ BUNDLE_FILE_NAME := "bundled;" ]}))
     (program_of (JStr "build") false) "src/sw.js" (world_of empty_disk)).1
  = Fulfilled ("bundled;", clean_stats).
Proof.
  apply (proj2 (compile_fulfilled_iff plain_join "/app"
                  (fixed_bundler (RunStats clean_stats {[ BUNDLE_FILE_NAME := "bundled;" ]}))
                  (program_of (JStr "build") false) "src/sw.js" (world_of empty_disk)
                  "bundled;" clean_stats)).
  exists {[ BUNDLE_FILE_NAME := "bundled;" ]}.
  repeat split.
Defined.

Lemma compile_rejected_iff_witness :
  (compile plain_join "/app" (fixed_bundler (RunErr (WebpackError "config")))
     (program_of (JStr "build") false) "src/sw.js" (world_of empty_disk)).1
  = Rejected (WebpackError "config").
Proof.
  apply (proj2 (compile_rejected_iff plain_join "/app"
                  (fixed_bundler (RunErr (WebpackError "config")))
                  (program_of (JStr "build") false) "src/sw.js" (world_of empty_disk)
                  (WebpackError "config"))).
  left. reflexivity.
Defined.

(** ** [action] *)

Lemma action_unfold basename path_join cwd webpack_run program file w :
  action basename path_join cwd webpack_run program file w
  = if skipCompile program then
      promise_then (read file)
        (fun result => append basename program (ToString result) file)
        (started program w)
    else
      promise_then (compile path_join cwd webpack_run program file)
        (fun '(result, stats) => append basename program result file)
        (started program w).
Proof.
  unfold action, started, action_env_map, env_value, setenv; simpl.
  destruct (js_strict_eq (mode program) "dev"); simpl;
    rewrite <- !app_assoc; reflexivity.
Qed.

(** What [append] adds to the log and does to the disk. *)
Lemma append_events basename program code file w :
  let out := append basename program code file w in
  (exists evs data,
     log out.2 = log w ++ evs
     /\ written evs = [(destination basename program file, data)]
     /\ runs evs = []
     /\ (forall path, path ∈ read_paths evs -> path = BUILD_SW_FILE_PATH))
  /\ (forall path, path <> destination basename program file ->
        files (disk out.2) !! path = files (disk w) !! path).
Proof.
  intros out. subst out.
  append_cases basename program code file w;
    (split;
     [ do 2 eexists; split; [reflexivity |]; split; [reflexivity |];
       split; [reflexivity |]; simpl;
       first [ by intros path [<- | []]%list_elem_of_In
             | by intros path []%list_elem_of_In ]
     | intros path Hne; try reflexivity; by rewrite lookup_insert_ne ]).
Qed.

(** [append] when every file-system call succeeds. *)
Lemma append_success basename program code file w existing :
  destination basename program file ∉ nowrite (disk w) ->
  (default_mode (mode program) = true ->
   Disk_read BUILD_SW_FILE_PATH (disk w) = inr existing) ->
  let out := append basename program code file w in
  out.1 = Fulfilled JUndefined
  /\ files (disk out.2)
     = <[destination basename program file := routed_text program existing code]>
         (files (disk w)).
Proof.
  intros Hw Hread out. subst out. unfold routed_text. revert Hw Hread.
  append_cases basename program code file w; intros Hw' Hread';
    try contradiction; try (by specialize (Hread' eq_refl)).
  - specialize (Hread' eq_refl). injection Hread' as <-. by split.
  - by split.
Qed.

(** X11: Besides BABEL_ENV and NODE_ENV, no environment variable is changed
    by an invocation. *)
Theorem action_leaves_other_variables
    basename path_join cwd webpack_run program file w name :
  name <> "BABEL_ENV" ->
  name <> "NODE_ENV" ->
  let out := action basename path_join cwd webpack_run program file w in
  process_env out.2 !! name = process_env w !! name.
Proof.
  intros Hb Hn out.
  destruct (action_env basename path_join cwd webpack_run program file w)
    as [Henv _].
  fold out in Henv. rewrite Henv.
  by rewrite !lookup_insert_ne.
Qed.

Lemma action_leaves_other_variables_witness :
  "PUBLIC_URL" <> "BABEL_ENV"
  /\ "PUBLIC_URL" <> "NODE_ENV"
  /\ process_env
       (action posix_basename plain_join "/app" (fixed_bundler (RunErr (JsError "unused")))
          (program_of (JStr "dev") true) "src/sw.js"
          {| disk := empty_disk;
             process_env := {[ "PUBLIC_URL" := "/app" ]};
             log := [] |}).2 !! "PUBLIC_URL"
     = ({[ "PUBLIC_URL" := "/app" ]} : gmap string string) !! "PUBLIC_URL".
Proof.
  assert (Hb : "PUBLIC_URL" <> "BABEL_ENV") by discriminate.
  assert (Hn : "PUBLIC_URL" <> "NODE_ENV") by discriminate.
  split; [exact Hb |]. split; [exact Hn |].
  exact (action_leaves_other_variables posix_basename plain_join "/app"
           (fixed_bundler (RunErr (JsError "unused"))) (program_of (JStr "dev") true)
           "src/sw.js"
           {| disk := empty_disk; process_env := {[ "PUBLIC_URL" := "/app" ]}; log := [] |}
           "PUBLIC_URL" Hb Hn).
Defined.

(** X12: Without skip-compile, when the run fails or its report has errors or
    warnings, the invocation rejects with the reason [compile] gives,
    [append] is not reached, and so no file is read or written by the
    tool and the disk is what it was. *)
Theorem failed_compile_leaves_disk_untouched
    basename path_join cwd webpack_run program file w :
  skipCompile program = false ->
  (forall stats data,
     webpack_run (webpack_config path_join cwd program file)
       (disk w) (action_env_map program (process_env w)) = RunStats stats data ->
     hasErrors stats || hasWarnings stats = true) ->
  let out := action basename path_join cwd webpack_run program file w in
  (exists reason,
     out.1 = Rejected reason
     /\ (compile path_join cwd webpack_run program file (started program w)).1
        = Rejected reason)
  /\ disk out.2 = disk w
  /\ exists evs,
       log out.2 = log w ++ evs /\ written evs = [] /\ read_paths evs = [].
Proof.
  intros Hskip Hdirty out. subst out.
  rewrite action_unfold, Hskip. unfold promise_then.
  rewrite compile_eq; simpl.
  destruct (webpack_run _ _ _) as [err | stats data] eqn:Hrun; simpl.
  - split; [by eexists |]. split; [reflexivity |].
    eexists. split; [by log_norm | by split].
  - rewrite (Hdirty _ _ eq_refl); simpl.
    split; [by eexists |]. split; [reflexivity |].
    eexists. split; [by log_norm | by split].
Qed.

Lemma failed_compile_leaves_disk_untouched_witness :
  skipCompile (program_of (JStr "build") false) = false
  /\ disk (action posix_basename plain_join "/app"
             (fixed_bundler (RunStats warned_stats {[ BUNDLE_FILE_NAME := "bundled;" ]}))
             (program_of (JStr "build") false) "src/sw.js"
             (world_of (disk_of [("build/sw.js", "old")]))).2
     = disk_of [("build/sw.js", "old")].
Proof.
  split; [reflexivity |].
  refine (proj1 (proj2 (failed_compile_leaves_disk_untouched posix_basename plain_join
                          "/app"
                          (fixed_bundler (RunStats warned_stats
                                            {[ BUNDLE_FILE_NAME := "bundled;" ]}))
                          (program_of (JStr "build") false) "src/sw.js"
                          (world_of (disk_of [("build/sw.js", "old")])) eq_refl _))).
  intros stats data [= <- _]. reflexivity.
Defined.

(** X13: Without skip-compile, when the run under the environment set by the
    invocation hands back a clean report and a bundle, and the file
    system calls of [append] succeed, the destination ends up holding the
    text of bundle.js from the in-memory output, unchanged (after the
    existing content in the default mode), and no other file changes. *)
Theorem compiled_bundle_is_routed
    basename path_join cwd webpack_run program file w stats data bundle existing :
  skipCompile program = false ->
  webpack_run (webpack_config path_join cwd program file)
    (disk w) (action_env_map program (process_env w)) = RunStats stats data ->
  hasErrors stats = false ->
  hasWarnings stats = false ->
  data !! BUNDLE_FILE_NAME = Some bundle ->
  destination basename program file ∉ nowrite (disk w) ->
  (default_mode (mode program) = true ->
   Disk_read BUILD_SW_FILE_PATH (disk w) = inr existing) ->
  let out := action basename path_join cwd webpack_run program file w in
  out.1 = Fulfilled JUndefined
  /\ files (disk out.2)
     = <[destination basename program file := routed_text program existing bundle]>
         (files (disk w)).
Proof.
  intros Hskip Hrun He Hwarn Hbundle Hw Hread out. subst out.
  rewrite action_unfold, Hskip. unfold promise_then.
  rewrite compile_eq; simpl. rewrite Hrun, He, Hwarn; simpl. rewrite Hbundle.
  match goal with |- context [append _ _ _ _ ?w2] =>
    exact (append_success basename program bundle file w2 existing Hw Hread) end.
Qed.

Lemma compiled_bundle_is_routed_witness :
  skipCompile (program_of (JStr "build") false) = false
  /\ files (disk (action posix_basename plain_join "/app"
                    (fixed_bundler (RunStats clean_stats {[ BUNDLE_FILE_NAME := "bundled;" ]}))
                    (program_of (JStr "build") false) "src/sw.js"
                    (world_of (disk_of [("build/sw.js", "old")]))).2)
     = <[destination posix_basename (program_of (JStr "build") false) "src/sw.js"
         := routed_text (program_of (JStr "build") false) "" "bundled;"]>
         (files (disk_of [("build/sw.js", "old")])).
Proof.
  split; [reflexivity |].
  refine (proj2 (compiled_bundle_is_routed posix_basename plain_join "/app"
                   (fixed_bundler (RunStats clean_stats {[ BUNDLE_FILE_NAME := "bundled;" ]}))
                   (program_of (JStr "build") false) "src/sw.js"
                   (world_of (disk_of [("build/sw.js", "old")]))
                   clean_stats {[ BUNDLE_FILE_NAME := "bundled;" ]} "bundled;" ""
                   eq_refl eq_refl eq_refl eq_refl _ _ _)).
  - vm_compute. reflexivity.
  - apply not_elem_of_empty.
  - discriminate.
Defined.

(** X14: Under skip-compile, when the entry file can be read and the file
    system calls of [append] succeed, the destination of the mode ends up
    holding the entry file's text, unchanged (after the existing content
    in the default mode), in every mode. *)
Theorem skip_compile_routes_entry_text
    basename path_join cwd webpack_run program file w content existing :
  skipCompile program = true ->
  Disk_read file (disk w) = inr content ->
  destination basename program file ∉ nowrite (disk w) ->
  (default_mode (mode program) = true ->
   Disk_read BUILD_SW_FILE_PATH (disk w) = inr existing) ->
  let out := action basename path_join cwd webpack_run program file w in
  out.1 = Fulfilled JUndefined
  /\ files (disk out.2)
     = <[destination basename program file := routed_text program existing content]>
         (files (disk w)).
Proof.
  intros Hskip Hentry Hw Hread out. subst out.
  rewrite action_unfold, Hskip. unfold promise_then.
  rewrite (read_ok file (started program w) content Hentry); simpl.
  match goal with |- context [append _ _ _ _ ?w2] =>
    exact (append_success basename program content file w2 existing Hw Hread) end.
Qed.

Lemma skip_compile_routes_entry_text_witness :
  skipCompile (program_of JUndefined true) = true
  /\ Disk_read BUILD_SW_FILE_PATH (disk_of [(BUILD_SW_FILE_PATH, "P;")]) = inr "P;"
  /\ files (disk (action posix_basename plain_join "/app"
                    (fixed_bundler (RunErr (JsError "unused")))
                    (program_of JUndefined true) BUILD_SW_FILE_PATH
                    (world_of (disk_of [(BUILD_SW_FILE_PATH, "P;")]))).2)
     = <[BUILD_SW_FILE_PATH := "P;" +:+ "P;"]> (files (disk_of [(BUILD_SW_FILE_PATH, "P;")])).
Proof.
  assert (Hread : Disk_read BUILD_SW_FILE_PATH
                    (disk (world_of (disk_of [(BUILD_SW_FILE_PATH, "P;")]))) = inr "P;")
    by (vm_compute; reflexivity).
  split; [reflexivity |]. split; [exact Hread |].
  refine (proj2 (skip_compile_routes_entry_text posix_basename plain_join "/app"
                   (fixed_bundler (RunErr (JsError "unused")))
                   (program_of JUndefined true) BUILD_SW_FILE_PATH
                   (world_of (disk_of [(BUILD_SW_FILE_PATH, "P;")])) "P;" "P;"
                   eq_refl Hread _ (fun _ => Hread))).
  apply not_elem_of_empty.
Defined.

(** X15: What an invocation does to the outside after the two assignments:
    under skip-compile the bundler is never run, otherwise it is run
    exactly once, on the configuration built from the entry file; at most
    one write is attempted, on the destination of the mode; and the only
    files the tool reads itself are the entry file (under skip-compile
    only) and build/service-worker.js. *)
Theorem action_footprint basename path_join cwd webpack_run program file w :
  let out := action basename path_join cwd webpack_run program file w in
  exists evs,
    log out.2 = log (started program w) ++ evs
    /\ runs evs = (if skipCompile program then []
                   else [webpack_config path_join cwd program file])
    /\ (written evs = []
        \/ exists data, written evs = [(destination basename program file, data)])
    /\ (forall path, path ∈ read_paths evs ->
          path = BUILD_SW_FILE_PATH \/ (skipCompile program = true /\ path = file)).
Proof.
  intros out. subst out. rewrite action_unfold. unfold promise_then.
  destruct (skipCompile program).
  - destruct (Disk_read file (disk (started program w))) as [e | text] eqn:Hread.
    + rewrite (read_failed _ _ _ Hread); simpl.
      eexists. split; [reflexivity |]. split; [reflexivity |]. split; [by left |].
      simpl. intros path [-> | []]%list_elem_of_In. by right.
    + rewrite (read_ok _ _ _ Hread); simpl.
      match goal with |- context [append _ _ _ _ ?w1] =>
        destruct (append_events basename program text file w1)
          as [(evs & data & Hlog & Hwritten & Hruns & Hreads) _] end.
      simpl in Hlog. rewrite Hlog.
      exists ([EvReadFile file; EvResolve] ++ evs).
      split; [by rewrite <- app_assoc |].
      unfold runs, written, read_paths in *. rewrite !omap_app; simpl.
      rewrite Hruns, Hwritten. split; [reflexivity |]. split; [right; by eexists |].
      intros path [-> | Hin]%elem_of_cons; [by right | left; by apply Hreads].
  - rewrite compile_eq; simpl.
    destruct (webpack_run _ _ _) as [err | stats data]; simpl.
    + eexists. split; [reflexivity |]. split; [reflexivity |]. split; [by left |].
      simpl. by intros path []%list_elem_of_In.
    + destruct (hasErrors stats || hasWarnings stats); simpl.
      * eexists. split; [reflexivity |]. split; [reflexivity |]. split; [by left |].
        simpl. by intros path []%list_elem_of_In.
      * destruct (data !! BUNDLE_FILE_NAME) as [result |]; simpl.
        -- match goal with |- context [append _ _ _ _ ?w1] =>
             destruct (append_events basename program result file w1)
               as [(evs & text & Hlog & Hwritten & Hruns & Hreads) _] end.
           simpl in Hlog. rewrite Hlog.
           exists ([EvRun (webpack_config path_join cwd program file); EvResolve] ++ evs).
           split; [by rewrite <- app_assoc |].
           unfold runs, written, read_paths in *. rewrite !omap_app; simpl.
           rewrite Hruns, Hwritten. split; [reflexivity |].
           split; [right; by eexists |].
           intros path Hin. left. by apply Hreads.
        -- eexists. split; [reflexivity |]. split; [reflexivity |]. split; [by left |].
           simpl. by intros path []%list_elem_of_In.
Qed.

(** X16: The result of an invocation depends on the bundler only through the
    one run it asks for: on the configuration built from the entry file,
    with the disk as found and the environment in which the two variables
    are set, both to the mode of that configuration.  Under skip-compile
    it does not depend on the bundler at all. *)
Theorem action_consults_bundler_once
    basename path_join cwd run run' program file w :
  (skipCompile program = false ->
   run (webpack_config path_join cwd program file)
     (disk w) (action_env_map program (process_env w))
   = run' (webpack_config path_join cwd program file)
       (disk w) (action_env_map program (process_env w))) ->
  action basename path_join cwd run program file w
  = action basename path_join cwd run' program file w
  /\ action_env_map program (process_env w) !! "NODE_ENV"
     = Some (cfg_mode (webpack_config path_join cwd program file))
  /\ action_env_map program (process_env w) !! "BABEL_ENV"
     = Some (cfg_mode (webpack_config path_join cwd program file)).
Proof.
  intros Hsame. split; [| split].
  - rewrite !action_unfold. destruct (skipCompile program); [reflexivity |].
    unfold promise_then. rewrite !compile_eq; simpl. by rewrite (Hsame eq_refl).
  - unfold action_env_map. by rewrite lookup_insert_eq.
  - unfold action_env_map. rewrite lookup_insert_ne by done. by rewrite lookup_insert_eq.
Qed.

Lemma action_consults_bundler_once_witness :
  action posix_basename plain_join "/app"
    (fun config _ _ => if String.eqb (cfg_mode config) "production"
                       then RunStats clean_stats {[ BUNDLE_FILE_NAME := "bundled;" ]}
                       else RunErr (WebpackError "mode"))
    (program_of (JStr "build") false) "src/sw.js" (world_of empty_disk)
  = action posix_basename plain_join "/app"
      (fixed_bundler (RunStats clean_stats {[ BUNDLE_FILE_NAME := "bundled;" ]}))
      (program_of (JStr "build") false) "src/sw.js" (world_of empty_disk).
Proof.
  refine (proj1 (action_consults_bundler_once posix_basename plain_join "/app" _ _
                   (program_of (JStr "build") false) "src/sw.js" (world_of empty_disk)
                   _)).
  intros _. reflexivity.
Defined.

(** * The bytes of the entry file *)

(** ** Decoding well-formed UTF-8 *)

Lemma begin_lead b more lo hi :
  lead_info b = Some (more, lo, hi) ->
  begin b = match more with
            | 0 => ([b], idle)
            | S _ => ([], {| needed := more; seen := [b];
                             lower_boundary := lo; upper_boundary := hi |})
            end.
Proof. intros Hlead. unfold begin. rewrite Hlead. by destruct more. Qed.

Lemma decode_from_idle_cons b rest :
  decode_from idle (b :: rest)
  = (begin b).1 ++ decode_from (begin b).2 rest.
Proof.
  change (decode_from idle (b :: rest))
    with (let '(out, st') := begin b in out ++ decode_from st' rest).
  by destruct (begin b).
Qed.

(** A byte in range, with [more] bytes still to come after it. *)
Lemma decode_from_continue more sofar lo hi c rest :
  byte_in lo hi c = true ->
  decode_from {| needed := S (S more); seen := sofar;
                 lower_boundary := lo; upper_boundary := hi |} (c :: rest)
  = decode_from {| needed := S more; seen := sofar ++ [c];
                   lower_boundary := 0x80; upper_boundary := 0xBF |} rest.
Proof.
  intros Hin. cbn [decode_from step needed seen lower_boundary upper_boundary].
  by rewrite Hin.
Qed.

(** The byte in range that completes a sequence. *)
Lemma decode_from_complete sofar lo hi c rest :
  byte_in lo hi c = true ->
  decode_from {| needed := 1; seen := sofar;
                 lower_boundary := lo; upper_boundary := hi |} (c :: rest)
  = (sofar ++ [c]) ++ decode_from idle rest.
Proof.
  intros Hin. cbn [decode_from step needed seen lower_boundary upper_boundary].
  by rewrite Hin.
Qed.

Lemma decode_well_formed_bounded n bytes :
  length bytes <= n ->
  well_formed bytes = true ->
  decode_from idle bytes = bytes.
Proof.
  revert bytes. induction n as [| n IH]; intros bytes Hlen Hwf.
  { destruct bytes; [reflexivity | simpl in Hlen; lia]. }
  destruct bytes as [| b rest]; [reflexivity |].
  simpl in Hlen. cbn [well_formed] in Hwf.
  rewrite decode_from_idle_cons.
  destruct (lead_info b) as [[[more lo] hi] |] eqn:Hlead; [| discriminate].
  rewrite (begin_lead _ _ _ _ Hlead).
  destruct more as [| [| [| [| more]]]]; [| | | | discriminate].
  - simpl. f_equal. apply IH; [lia | exact Hwf].
  - destruct rest as [| c1 rest1]; [discriminate |].
    apply andb_prop in Hwf as [H1 Hwf]. simpl in Hlen.
    cbn [fst snd]. rewrite (decode_from_complete _ _ _ _ _ H1). simpl.
    do 2 f_equal. apply IH; [lia | exact Hwf].
  - destruct rest as [| c1 [| c2 rest2]]; [discriminate | discriminate |].
    apply andb_prop in Hwf as [Hwf Hrest]. apply andb_prop in Hwf as [H1 H2].
    simpl in Hlen. cbn [fst snd].
    rewrite (decode_from_continue _ _ _ _ _ _ H1).
    rewrite (decode_from_complete _ _ _ _ _ H2). simpl.
    do 3 f_equal. apply IH; [lia | exact Hrest].
  - destruct rest as [| c1 [| c2 [| c3 rest3]]]; [discriminate .. |].
    apply andb_prop in Hwf as [Hwf Hrest]. apply andb_prop in Hwf as [Hwf H3].
    apply andb_prop in Hwf as [H1 H2].
    simpl in Hlen. cbn [fst snd].
    rewrite (decode_from_continue _ _ _ _ _ _ H1).
    rewrite (decode_from_continue _ _ _ _ _ _ H2).
    rewrite (decode_from_complete _ _ _ _ _ H3). simpl.
    do 4 f_equal. apply IH; [lia | exact Hrest].
Qed.

(** Decoding leaves well-formed UTF-8 as it is. *)
Lemma utf8_decode_well_formed bytes :
  well_formed_utf8 bytes = true -> utf8_decode bytes = bytes.
Proof.
  intros Hwf. unfold utf8_decode.
  rewrite (decode_well_formed_bounded _ _ (le_n _) Hwf).
  apply String.string_of_list_ascii_of_string.
Qed.

(** What the tool reads from a file of bytes. *)
Lemma Disk_read_decoded rd path bytes :
  raw_files rd !! path = Some bytes ->
  path ∉ raw_noread rd ->
  Disk_read path (decoded rd) = inr (utf8_decode bytes).
Proof.
  intros Hfile Hr. unfold Disk_read, decoded; simpl.
  destruct (decide _); [contradiction |].
  by rewrite lookup_fmap, Hfile.
Qed.

(** Storing a text whose representation is well formed and then looking
    at the disk through the decoding is the write the tool sees. *)
Lemma decoded_raw_write path data rd :
  well_formed_utf8 data = true ->
  decoded (raw_write path data rd) = (Disk_write path data (decoded rd)).2.
Proof.
  intros Hwf. unfold raw_write, Disk_write, decoded; simpl.
  destruct (decide _); [reflexivity |]. simpl.
  by rewrite fmap_insert, (utf8_decode_well_formed _ Hwf).
Qed.

(** ** The round trip under skip-compile *)

(** C8, as amended: under skip-compile with mode "dev", an entry file
    whose bytes are well-formed UTF-8 ends up as public/<basename of the
    entry file> holding exactly those bytes. *)
Theorem skip_compile_dev_roundtrip_utf8
    basename path_join cwd webpack_run program file vars rd bytes :
  skipCompile program = true ->
  mode program = JStr "dev" ->
  raw_files rd !! file = Some bytes ->
  file ∉ raw_noread rd ->
  "public/" +:+ basename file ∉ raw_nowrite rd ->
  well_formed_utf8 bytes = true ->
  let out := action_on_bytes basename path_join cwd webpack_run program file vars rd in
  out.1 = Fulfilled JUndefined
  /\ raw_files out.2 !! ("public/" +:+ basename file) = Some bytes.
Proof.
  intros Hskip Hmode Hfile Hr Hw Hwf out. subst out.
  pose proof (Disk_read_decoded _ _ _ Hfile Hr) as Hread.
  rewrite (utf8_decode_well_formed _ Hwf) in Hread.
  unfold action_on_bytes. rewrite action_unfold, Hskip. unfold promise_then.
  rewrite (read_ok file
             (started program {| disk := decoded rd; process_env := vars; log := [] |})
             bytes Hread); simpl.
  rewrite (append_dev _ _ _ _ Hmode).
  rewrite writeFile_ok by exact Hw. simpl.
  split; [reflexivity |].
  unfold raw_write. destruct (decide _); [contradiction |]. simpl.
  by rewrite lookup_insert_eq.
Qed.

Lemma skip_compile_dev_roundtrip_utf8_witness :
  let rd := {| raw_files := {[ "src/sw.js" := string_of_bytes [0xE2; 0x82; 0xAC; 0x3B]%N ]};
               raw_noread := ∅; raw_nowrite := ∅ |} in
  well_formed_utf8 (string_of_bytes [0xE2; 0x82; 0xAC; 0x3B]%N) = true
  /\ raw_files
       (action_on_bytes posix_basename plain_join "/app"
          (fixed_bundler (RunErr (JsError "unused")))
          (program_of (JStr "dev") true) "src/sw.js" ∅ rd).2
       !! ("public/" +:+ posix_basename "src/sw.js")
     = Some (string_of_bytes [0xE2; 0x82; 0xAC; 0x3B]%N).
Proof.
  intros rd.
  assert (Hwf : well_formed_utf8 (string_of_bytes [0xE2; 0x82; 0xAC; 0x3B]%N) = true)
    by (vm_compute; reflexivity).
  assert (Hfile : raw_files rd !! "src/sw.js"
                  = Some (string_of_bytes [0xE2; 0x82; 0xAC; 0x3B]%N))
    by (vm_compute; reflexivity).
  split; [exact Hwf |].
  refine (proj2 (skip_compile_dev_roundtrip_utf8 posix_basename plain_join "/app"
                   (fixed_bundler (RunErr (JsError "unused")))
                   (program_of (JStr "dev") true) "src/sw.js" ∅ rd _
                   eq_refl eq_refl Hfile _ _ Hwf)).
  - apply not_elem_of_empty.
  - apply not_elem_of_empty.
Defined.

(** C8, as stated, fails: the entry file src/sw.js holding the three
    bytes 61 FF 62, which are not UTF-8, is read, and public/sw.js is
    written with the five bytes 61 EF BF BD 62, the byte FF having become
    U+FFFD on the way. *)
Lemma invalid_utf8_entry_is_not_copied_exactly :
  ~ (forall basename path_join cwd webpack_run program file vars rd bytes,
       skipCompile program = true ->
       mode program = JStr "dev" ->
       raw_files rd !! file = Some bytes ->
       file ∉ raw_noread rd ->
       "public/" +:+ basename file ∉ raw_nowrite rd ->
       raw_files
         (action_on_bytes basename path_join cwd webpack_run program file vars rd).2
         !! ("public/" +:+ basename file)
       = Some bytes).
Proof.
  intros Hclaim.
  specialize (Hclaim posix_basename plain_join "/app"
                (fixed_bundler (RunErr (JsError "unused")))
                (program_of (JStr "dev") true) "src/sw.js" ∅
                {| raw_files := {[ "src/sw.js" := string_of_bytes [0x61; 0xFF; 0x62]%N ]};
                   raw_noread := ∅; raw_nowrite := ∅ |}
                (string_of_bytes [0x61; 0xFF; 0x62]%N)
                eq_refl eq_refl).
  assert (Hwritten :
            raw_files
              (action_on_bytes posix_basename plain_join "/app"
                 (fixed_bundler (RunErr (JsError "unused")))
                 (program_of (JStr "dev") true) "src/sw.js" ∅
                 {| raw_files := {[ "src/sw.js" := string_of_bytes [0x61; 0xFF; 0x62]%N ]};
                    raw_noread := ∅; raw_nowrite := ∅ |}).2
              !! ("public/" +:+ posix_basename "src/sw.js")
            = Some (string_of_bytes [0x61; 0xEF; 0xBF; 0xBD; 0x62]%N))
    by (vm_compute; reflexivity).
  rewrite Hwritten in Hclaim.
  assert (Hne : Some (string_of_bytes [0x61; 0xEF; 0xBF; 0xBD; 0x62]%N)
                <> Some (string_of_bytes [0x61; 0xFF; 0x62]%N))
    by (vm_compute; discriminate).
  apply Hne, Hclaim.
  - vm_compute. reflexivity.
  - apply not_elem_of_empty.
  - apply not_elem_of_empty.
Qed.

(** * The regular expression of [--mode] *)

Lemma lower_char_Canonicalize ch : lower_char (Canonicalize ch) = lower_char ch.
Proof. destruct ch as [[] [] [] [] [] [] [] []]; reflexivity. Qed.

Lemma lower_canonical s : lower (canonical s) = lower s.
Proof.
  induction s as [| ch s IH]; [reflexivity |].
  simpl. by rewrite lower_char_Canonicalize, IH.
Qed.

Lemma canonical_length s : String.length (canonical s) = String.length s.
Proof. induction s as [| ch s IH]; [reflexivity |]. simpl. by rewrite IH. Qed.

Lemma list_ascii_length s :
  length (String.list_ascii_of_string s) = String.length s.
Proof. induction s as [| ch s IH]; [reflexivity |]. simpl. by rewrite IH. Qed.

(** The part of the input that a literal of the length of [lit] would
    cover from position [i]. *)
Lemma rmatch_literal lit input i k :
  rmatch true (literal lit) input i k
  = if String.eqb
         (canonical (String.string_of_list_ascii
                       (take (String.length lit) (drop i input))))
         (canonical lit)
    then k (i + String.length lit)
    else None.
Proof.
  revert i k. induction lit as [| c lit IH]; intros i k.
  - simpl. by rewrite Nat.add_0_r.
  - cbn [literal rmatch String.length].
    destruct (input !! i) as [ch |] eqn:Hi.
    + rewrite (drop_S _ _ _ Hi). cbn [take String.string_of_list_ascii canonical].
      cbn [String.eqb]. unfold char_matches.
      destruct (Ascii.eqb (Canonicalize ch) (Canonicalize c)); [| reflexivity].
      rewrite IH. by rewrite Nat.add_succ_comm.
    + rewrite (drop_ge input i) by (by apply lookup_ge_None).
      reflexivity.
Qed.

(** A literal followed by the end anchor, tried at the start of the
    input: it matches when the whole input is the literal up to case. *)
Lemma rmatch_literal_eol lit val :
  rmatch true (literal lit) (String.list_ascii_of_string val) 0
    (fun j => rmatch true REol (String.list_ascii_of_string val) j Some)
  = if String.eqb (canonical val) (canonical lit)
    then Some (String.length val) else None.
Proof.
  rewrite rmatch_literal. cbn [rmatch]. rewrite drop_0, Nat.add_0_l, list_ascii_length.
  destruct (Nat.eqb_spec (String.length lit) (String.length val)) as [Hlen | Hlen].
  - rewrite Hlen, <- list_ascii_length, firstn_all.
    rewrite String.string_of_list_ascii_of_string, list_ascii_length.
    reflexivity.
  - destruct (String.eqb_spec (canonical val) (canonical lit)) as [Heq | _].
    + apply (f_equal String.length) in Heq. rewrite !canonical_length in Heq.
      congruence.
    + by destruct (String.eqb _ _).
Qed.

(** The pattern tried at the start of the input. *)
Lemma rmatch_MODE_PATTERN_start val :
  rmatch true MODE_PATTERN (String.list_ascii_of_string val) 0 Some
  = if existsb (fun alt => String.eqb (canonical val) (canonical alt))
         ["dev"; "build"; "replace"]
    then Some (String.length val) else None.
Proof.
  unfold MODE_PATTERN.
  cbn [rmatch Nat.eqb]. rewrite !rmatch_literal_eol. cbn [existsb].
  destruct (String.eqb (canonical val) (canonical "dev")); [reflexivity |].
  destruct (String.eqb (canonical val) (canonical "build")); [reflexivity |].
  by destruct (String.eqb (canonical val) (canonical "replace")).
Qed.

(** Anchored at the start, the pattern matches at no later position. *)
Lemma first_match_MODE_PATTERN_later input starts :
  Forall (fun start => start <> 0) starts ->
  first_match true MODE_PATTERN input starts = None.
Proof.
  induction 1 as [| start starts Hstart _ IH]; [reflexivity |].
  cbn [first_match]. unfold MODE_PATTERN at 1. cbn [rmatch].
  destruct (Nat.eqb_spec start 0); [contradiction | exact IH].
Qed.

(** The closed form used for the option is what [exec] computes on the
    pattern. *)
Lemma mode_regex_exec_is_exec val :
  regex_exec true MODE_PATTERN val = mode_regex_exec val.
Proof.
  unfold regex_exec, mode_regex_exec. cbn [seq first_match].
  rewrite rmatch_MODE_PATTERN_start.
  destruct (existsb _ _).
  - rewrite Nat.sub_0_r, drop_0, <- list_ascii_length, firstn_all.
    by rewrite String.string_of_list_ascii_of_string.
  - rewrite first_match_MODE_PATTERN_later; [reflexivity |].
    apply Forall_forall. intros start Hin%elem_of_seq. lia.
Qed.

(** X17: [exec] of the pattern [/^(dev|build|replace)$/i] on a value
    yields a match exactly when the value is dev, build or replace up to
    the case of its ASCII letters, and the match is the whole value as
    typed; on any other value, such as the empty string or a name with
    something before or after it, it yields none. *)
Theorem mode_pattern_exec_iff val :
  (lower val ∈ ["dev"; "build"; "replace"] ->
   regex_exec true MODE_PATTERN val = Some val)
  /\ (lower val ∉ ["dev"; "build"; "replace"] ->
      regex_exec true MODE_PATTERN val = None).
Proof.
  rewrite mode_regex_exec_is_exec. split.
  - apply mode_regex_accepts.
  - intros Hnot. unfold mode_regex_exec.
    destruct (existsb _ _) eqn:Hex; [| reflexivity].
    exfalso. apply Hnot.
    apply existsb_exists in Hex as (alt & Hin & Heq).
    apply String.eqb_eq in Heq.
    apply (f_equal lower) in Heq. rewrite !lower_canonical in Heq.
    rewrite Heq. apply list_elem_of_In.
    destruct Hin as [<- | [<- | [<- | []]]]; simpl; tauto.
Qed.

Lemma mode_pattern_exec_iff_witness :
  (lower "devs" ∉ ["dev"; "build"; "replace"])
  /\ regex_exec true MODE_PATTERN "devs" = None.
Proof.
  assert (Hnot : lower "devs" ∉ ["dev"; "build"; "replace"])
    by (apply (bool_decide_unpack _); vm_compute; exact I).
  split; [exact Hnot |].
  exact (proj2 (mode_pattern_exec_iff "devs") Hnot).
Defined.
